(** * Kokoro-FastAPI audio service: normalisation, silence trimming, dispatch

    A shallow embedding of [api/src/services/audio.py]:
    - [AudioNormalizer] (constructor, [find_first_last_non_silent],
      [normalize]);
    - [AudioService] ([DEFAULT_SETTINGS], [convert_audio]).

    NumPy's [float32] arithmetic is IEEE 754 binary32; it is embedded with
    the executable specification of the Standard Library ([SpecFloat]) at
    precision 24 and maximal exponent 128.  [int16] samples and Python
    integers are [Z]; dictionaries are [gmap]; exceptions are values of an
    explicit [result] type. *)

From Stdlib Require Import ZArith Lia Reals Lra Floats.SpecFloat Strings.Byte.
From stdpp Require Import gmap strings list.

Local Open Scope Z_scope.

(** ** Exceptions and results *)

(** A Python exception: its class name and [str(e)]. *)
Record exn := mk_exn { exn_class : string; exn_str : string }.

Definition ValueError (msg : string) : exn := mk_exn "ValueError" msg.

Inductive result (A : Type) : Type :=
| Ok (a : A)
| Raise (e : exn).
Arguments Ok {A} a.
Arguments Raise {A} e.

Definition bind {A B} (r : result A) (k : A -> result B) : result B :=
  match r with
  | Ok a => k a
  | Raise e => Raise e
  end.

Notation "'let!' x ':=' r 'in' k" := (bind r (fun x => k))
  (at level 10, x name, r at level 100, k at level 200).

(** [try: body except Exception as e: handler e]. *)
Definition try_except {A} (body : result A) (handler : exn -> result A)
  : result A :=
  match body with
  | Ok a => Ok a
  | Raise e => handler e
  end.

(** ** NumPy [float32] *)

Module Float32.

Definition prec : Z := 24.
Definition emax : Z := 128.

(** A [spec_float] is a binary32 value when its mantissa and exponent are
    in canonical form. *)
Definition valid (x : spec_float) : bool := valid_binary prec emax x.

Definition is_finite (x : spec_float) : bool :=
  match x with
  | S754_zero _ | S754_finite _ _ _ => true
  | S754_infinity _ | S754_nan => false
  end.

Definition zero : spec_float := S754_zero false.

(** [np.float32(z)] for an integer [z] (exact below 2^24, rounded above). *)
Definition of_Z (z : Z) : spec_float := binary_normalize prec emax z 0 false.

Definition abs (x : spec_float) : spec_float := SFabs x.
Definition div (x y : spec_float) : spec_float := SFdiv prec emax x y.
Definition mul (x y : spec_float) : spec_float := SFmul prec emax x y.

(** [x > y]; false whenever a NaN is involved. *)
Definition gtb (x y : spec_float) : bool := SFltb y x.

(** The binary step of [np.max]: NaN propagates. *)
Definition maximum (x y : spec_float) : spec_float :=
  match SFcompare x y with
  | None => S754_nan
  | Some Lt => y
  | Some _ => x
  end.

(** Rounding toward zero to an integer ([0] for NaN and infinities, where
    the C conversion is undefined). *)
Definition trunc (x : spec_float) : Z :=
  match x with
  | S754_finite s m e => cond_Zopp s (Z.shiftl (Z.pos m) e)
  | _ => 0
  end.

End Float32.

(** ** NumPy arrays *)

Definition int16_min : Z := -32768.

(** [np.iinfo(np.int16).max], stored as [self.int16_max]. *)
Definition int16_max : Z := 32767.

Definition in_int16 (z : Z) : Prop := int16_min <= z <= int16_max.

(** Two's complement reduction to 16 bits. *)
Definition wrap_int16 (z : Z) : Z := (z + 32768) mod 65536 - 32768.

(** One element of [.astype(np.int16)] on a [float32] array: the C
    conversion truncates toward zero.  For values outside the [int16] range
    the C conversion is undefined; the embedding reduces them modulo 2^16.
    [normalize] never reaches that case on finite input (see
    [quantize_div_bound]). *)
Definition float32_to_int16 (x : spec_float) : Z :=
  wrap_int16 (Float32.trunc x).

(** The arrays [convert_audio] receives: [int16] or [float32] samples. *)
Inductive ndarray : Type :=
| Int16Array (xs : list Z)
| Float32Array (xs : list spec_float).

Definition ndarray_len (a : ndarray) : nat :=
  match a with
  | Int16Array xs => length xs
  | Float32Array xs => length xs
  end.

(** [audio_data.astype(np.float32)]. *)
Definition astype_float32 (a : ndarray) : list spec_float :=
  match a with
  | Int16Array xs => map Float32.of_Z xs
  | Float32Array xs => xs
  end.

(** The exception of a reduction without identity on a zero-size array. *)
Definition np_max_empty_error : exn :=
  ValueError
    "zero-size array to reduction operation maximum which has no identity".

(** [np.max(a)]: raises on a zero-size array. *)
Definition np_max (a : list spec_float) : result spec_float :=
  match a with
  | [] => Raise np_max_empty_error
  | x :: xs => Ok (fold_left Float32.maximum xs x)
  end.

(** Python's slice [a[start:stop]] for integer bounds: a negative bound
    counts from the end, and both are clamped to the array. *)
Definition py_slice_bound (len i : Z) : Z :=
  if i <? 0 then Z.max (i + len) 0 else Z.min i len.

Definition py_slice {A} (a : list A) (start stop : Z) : list A :=
  let len := Z.of_nat (length a) in
  let lo := py_slice_bound len start in
  let hi := py_slice_bound len stop in
  take (Z.to_nat (hi - lo)) (drop (Z.to_nat lo) a).

(** ** [AudioNormalizer] *)

(** The two fields of [core.config.settings] that the constructor reads.
    The configuration module lies outside [audio.py]; its two values are
    parameters here, Python integers (milliseconds). *)
Record Settings := mk_settings {
  gap_trim_ms : Z;
  dynamic_gap_trim_padding_ms : Z
}.

Record AudioNormalizer := mk_normalizer {
  chunk_trim_ms : Z;
  sample_rate : Z;
  samples_to_trim : Z;
  samples_to_pad_start : Z;
  samples_to_pad_end : Z
}.

(** [int(ms * sample_rate / 1000)]: true division, then truncation toward
    zero, with the quotient taken exactly.  Python rounds the quotient to
    binary64 ([ms_to_samples_binary64] below); at 24000 samples per second
    the two agree while [24 * ms] is representable
    ([ms_to_samples_binary64_exact]), and the constructor is modelled on
    that range. *)
Definition ms_to_samples (ms rate : Z) : Z := Z.quot (ms * rate) 1000.

(** A Python integer as an operand of true division: the integer itself,
    not rounded. *)
Definition int_operand (z : Z) : spec_float :=
  match z with
  | 0 => S754_zero false
  | Z.pos p => S754_finite false p 0
  | Z.neg p => S754_finite true p 0
  end.

(** [a / b] on Python integers: the binary64 value nearest the exact
    quotient (ties to even); [OverflowError] when that is out of range. *)
Definition int_true_divide (a b : Z) : result spec_float :=
  if b =? 0 then Raise (mk_exn "ZeroDivisionError" "division by zero")
  else
    match SFdiv 53 1024 (int_operand a) (int_operand b) with
    | S754_infinity _ =>
        Raise (mk_exn "OverflowError"
                      "integer division result too large for a float")
    | q => Ok q
    end.

(** [int(ms * sample_rate / 1000)] as Python evaluates it: an integer
    product, a true division into binary64, a truncation. *)
Definition ms_to_samples_binary64 (ms rate : Z) : result Z :=
  let! q := int_true_divide (ms * rate) 1000 in
  Ok (Float32.trunc q).

(** [AudioNormalizer.__init__]. *)
Definition AudioNormalizer_init (settings : Settings) : AudioNormalizer :=
  let chunk_trim_ms := gap_trim_ms settings in
  let sample_rate := 24000 in
  let samples_to_trim := ms_to_samples chunk_trim_ms sample_rate in
  let samples_to_pad_start := ms_to_samples 50 sample_rate in
  let samples_to_pad_end :=
    Z.max (ms_to_samples (dynamic_gap_trim_padding_ms settings) sample_rate
           - samples_to_pad_start) 0 in
  mk_normalizer chunk_trim_ms sample_rate samples_to_trim
                samples_to_pad_start samples_to_pad_end.

(** [amplitude_threshold = self.int16_max * (10 ** (silence_threshold_db /
    20))], as a real number: the value that Python approximates in
    binary64 (where the expression evaluates at all, see
    [threshold_evaluates]). *)
Definition amplitude_threshold (silence_threshold_db : Z) : R :=
  (IZR int16_max * Rpower 10 (IZR silence_threshold_db / 20))%R.

(** [audio_data[X] > amplitude_threshold] for an integer sample, decided in
    integers.  The threshold is positive, so the comparison fails for
    [sample <= 0]; for a positive sample both sides are raised to the 20th
    power, which turns the comparison into one between integers
    ([exceeds_threshold_real]).  Python evaluates the threshold in binary64;
    for the default of -45 dBFS, the only threshold [normalize] uses, it
    is 184.26..., far from any integer ([exceeds_threshold_default]).  The
    definition is total: from 6166 dB on, where [10 ** ...] raises
    [OverflowError], it has no counterpart in the source
    ([threshold_evaluates]). *)
Definition exceeds_threshold (sample silence_threshold_db : Z) : bool :=
  (0 <? sample) &&
  (if 0 <=? silence_threshold_db
   then int16_max ^ 20 * 10 ^ silence_threshold_db <? sample ^ 20
   else int16_max ^ 20 <? sample ^ 20 * 10 ^ (- silence_threshold_db)).

(** [for X in range(X0, X0 + len(audio)): if audio[X] > threshold: break]. *)
Fixpoint scan_forward (silence_threshold_db : Z) (audio : list Z) (X : Z)
  : option Z :=
  match audio with
  | [] => None
  | sample :: rest =>
      if exceeds_threshold sample silence_threshold_db then Some X
      else scan_forward silence_threshold_db rest (X + 1)
  end.

(** [for X in range(X0, X0 - len(audio), -1)], over the samples in the
    order the loop visits them (last sample first). *)
Fixpoint scan_backward (silence_threshold_db : Z) (visited : list Z) (X : Z)
  : option Z :=
  match visited with
  | [] => None
  | sample :: rest =>
      if exceeds_threshold sample silence_threshold_db then Some X
      else scan_backward silence_threshold_db rest (X - 1)
  end.

(** [AudioNormalizer.find_first_last_non_silent]. *)
Definition find_first_last_non_silent (self : AudioNormalizer)
    (audio_data : list Z) (silence_threshold_db : Z) : Z * Z :=
  let len := Z.of_nat (length audio_data) in
  let non_silent_index_start :=
    scan_forward silence_threshold_db audio_data 0 in
  let non_silent_index_end :=
    scan_backward silence_threshold_db (reverse audio_data) (len - 1) in
  match non_silent_index_start, non_silent_index_end with
  | Some first, Some last =>
      (Z.max (first - samples_to_pad_start self) 0,
       Z.min (last + samples_to_pad_end self) len)
  | _, _ => (0, len)
  end.

(** [(audio_float * self.int16_max).astype(np.int16)], one element. *)
Definition quantize (x : spec_float) : Z :=
  float32_to_int16 (Float32.mul x (Float32.of_Z int16_max)).

(** Peak normalisation: the first two statements of [normalize]. *)
Definition peak_normalize (audio_data : ndarray) : result (list spec_float) :=
  let audio_float := astype_float32 audio_data in
  let! peak := np_max (map Float32.abs audio_float) in
  Ok (if Float32.gtb peak Float32.zero
      then map (fun x => Float32.div x peak) audio_float
      else audio_float).

(** End trimming of non-final chunks: [audio_float[:-self.samples_to_trim]]
    under the guard of the source. *)
Definition trim_chunk_end {A} (self : AudioNormalizer) (audio_float : list A)
    (is_last_chunk : bool) : list A :=
  if negb is_last_chunk
     && (samples_to_trim self <? Z.of_nat (length audio_float))
  then py_slice audio_float 0 (- samples_to_trim self)
  else audio_float.

(** The chunk after peak normalisation, end trimming and quantisation:
    [normalize] up to the assignment of [audio_int]. *)
Definition quantized_chunk (self : AudioNormalizer) (audio_data : ndarray)
    (is_last_chunk : bool) : result (list Z) :=
  let! audio_float := peak_normalize audio_data in
  let audio_float := trim_chunk_end self audio_float is_last_chunk in
  Ok (map quantize audio_float).

(** [AudioNormalizer.normalize]. *)
Definition normalize (self : AudioNormalizer) (audio_data : ndarray)
    (is_last_chunk : bool) : result (list Z) :=
  let! audio_int := quantized_chunk self audio_data is_last_chunk in
  let '(start_index, end_index) :=
    find_first_last_non_silent self audio_int (-45) in
  Ok (py_slice audio_int start_index end_index).

(** ** [AudioService] *)

(** Values of encoder parameters: Python strings and floats (binary64). *)
Inductive setting_value : Type :=
| SettingStr (s : string)
| SettingFloat (x : spec_float).

(** [AudioService.DEFAULT_SETTINGS]. *)
Definition DEFAULT_SETTINGS : gmap string (gmap string setting_value) :=
  {[ "mp3" := {[ "bitrate_mode" := SettingStr "CONSTANT";
                 "compression_level" := SettingFloat (S754_zero false) ]};
     "opus" := {[ "compression_level" := SettingFloat (S754_zero false) ]};
     "flac" := {[ "compression_level" := SettingFloat (S754_zero false) ]} ]}.

(** [format_settings.get(fmt, {}) if format_settings else {}]. *)
Definition format_overrides
    (format_settings : option (gmap string (gmap string setting_value)))
    (fmt : string) : gmap string setting_value :=
  match format_settings with
  | Some fs => if bool_decide (fs = ∅) then ∅ else default ∅ (fs !! fmt)
  | None => ∅
  end.

(** [{**AudioService.DEFAULT_SETTINGS[fmt], **settings}]: on a key of both,
    the right operand of the Python expression wins. *)
Definition merge_settings (fmt : string)
    (settings : gmap string setting_value) : gmap string setting_value :=
  settings ∪ (DEFAULT_SETTINGS !!! fmt).

(** One call [sf.write(buffer, data, samplerate, format=.., subtype=..,
    **settings)]. *)
Record sf_call := mk_sf_call {
  sf_data : ndarray;
  sf_samplerate : Z;
  sf_format : string;
  sf_subtype : option string;
  sf_kwargs : gmap string setting_value
}.

(** ** [ndarray.tobytes] (little-endian hosts) *)

Definition byte_of_Z (z : Z) : byte :=
  default x00 (Byte.of_N (Z.to_N (z mod 256))).

Definition le_bytes (width : nat) (z : Z) : list byte :=
  map (fun i => byte_of_Z (Z.shiftr z (8 * Z.of_nat i))) (seq 0 width).

(** The IEEE 754 binary32 encoding of a canonical value (the quiet NaN of
    [np.nan] for NaN). *)
Definition float32_bits (x : spec_float) : Z :=
  let sign (s : bool) := if s then 2 ^ 31 else 0 in
  match x with
  | S754_zero s => sign s
  | S754_infinity s => sign s + 255 * 2 ^ 23
  | S754_nan => 255 * 2 ^ 23 + 2 ^ 22
  | S754_finite s m e =>
      if Z.pos (digits2_pos m) =? Float32.prec
      then sign s + (e + 150) * 2 ^ 23 + (Z.pos m - 2 ^ 23)
      else sign s + Z.pos m
  end.

Definition tobytes (a : ndarray) : list byte :=
  match a with
  | Int16Array xs => flat_map (le_bytes 2) xs
  | Float32Array xs => flat_map (fun x => le_bytes 4 (float32_bits x)) xs
  end.

Definition SUPPORTED_FORMATS_TEXT : string :=
  "Supported formats are: wav, mp3, opus, flac, pcm.".

(** The message of the [ValueError] raised in the final [else] branch. *)
Definition unsupported_format_message (output_format : string) : string :=
  "Format " +:+ output_format +:+ " not supported. "
    +:+ SUPPORTED_FORMATS_TEXT.

(** The message of the [ValueError] raised by the [except] clause. *)
Definition conversion_failure_message (output_format : string) (e : exn)
  : string :=
  "Failed to convert audio to " +:+ output_format +:+ ": " +:+ exn_str e.

Section ConvertAudio.

(** The process-wide configuration read by [AudioNormalizer()]. *)
Variable settings : Settings.

(** The external writers.  Each stands for the whole call expression:
    it yields the bytes written into the fresh [BytesIO] buffer, or the
    exception (a subclass of [Exception]) that the call raises. *)
Variable sf_write : sf_call -> result (list byte).
Variable wavfile_write : Z -> ndarray -> result (list byte).

(** The [if stream: ... else: ...] statement that binds
    [normalized_audio]. *)
Definition normalized_audio_of (audio_data : ndarray)
    (is_last_chunk : bool) (normalizer : option AudioNormalizer)
    (stream : bool) : result ndarray :=
  if stream then
    let normalizer :=
      match normalizer with
      | None => AudioNormalizer_init settings
      | Some n => n
      end in
    let! a := normalize normalizer audio_data is_last_chunk in
    Ok (Int16Array a)
  else Ok audio_data.

(** The body of the [try] block. *)
Definition convert_audio_body (audio_data : ndarray) (sample_rate : Z)
    (output_format : string) (is_first_chunk is_last_chunk : bool)
    (normalizer : option AudioNormalizer)
    (format_settings : option (gmap string (gmap string setting_value)))
    (stream : bool) : result (list byte) :=
  let! normalized_audio :=
    normalized_audio_of audio_data is_last_chunk normalizer stream in
  if String.eqb output_format "pcm" then
    Ok (tobytes normalized_audio)
  else if String.eqb output_format "wav" then
    if stream then
      sf_write (mk_sf_call normalized_audio sample_rate "WAV"
                           (Some "PCM_16") ∅)
    else wavfile_write sample_rate normalized_audio
  else if String.eqb output_format "mp3" then
    let settings := format_overrides format_settings "mp3" in
    let settings := merge_settings "mp3" settings in
    sf_write (mk_sf_call normalized_audio sample_rate "MP3" None settings)
  else if String.eqb output_format "opus" then
    let settings := format_overrides format_settings "opus" in
    let settings := merge_settings "opus" settings in
    sf_write (mk_sf_call normalized_audio sample_rate "OGG"
                         (Some "OPUS") settings)
  else if String.eqb output_format "flac" then
    let settings := format_overrides format_settings "flac" in
    let settings := merge_settings "flac" settings in
    sf_write (mk_sf_call normalized_audio sample_rate "FLAC"
                         (Some "PCM_16") settings)
  else if String.eqb output_format "aac" then
    Raise (ValueError
      "Format aac not supported. Supported formats are: wav, mp3, opus, flac, pcm.")
  else
    Raise (ValueError (unsupported_format_message output_format)).

(** [AudioService.convert_audio].  The two [logger] calls have no effect
    on the result. *)
Definition convert_audio (audio_data : ndarray) (sample_rate : Z)
    (output_format : string) (is_first_chunk is_last_chunk : bool)
    (normalizer : option AudioNormalizer)
    (format_settings : option (gmap string (gmap string setting_value)))
    (stream : bool) : result (list byte) :=
  try_except
    (convert_audio_body audio_data sample_rate output_format
       is_first_chunk is_last_chunk normalizer format_settings stream)
    (fun e =>
       Raise (ValueError (conversion_failure_message output_format e))).

End ConvertAudio.

(** ** Vocabulary of the properties *)

(** Well-formed input: [int16] samples in range, [float32] samples that are
    canonical binary32 values and neither NaN nor infinite. *)
Definition finite_samples (a : ndarray) : Prop :=
  match a with
  | Int16Array xs => Forall in_int16 xs
  | Float32Array xs =>
      Forall (fun x => Float32.valid x = true /\ Float32.is_finite x = true)
             xs
  end.

(** The locator as the specification words it: the first and the last index
    whose _absolute_ sample value exceeds the amplitude threshold.  It is
    the source's locator run on the absolute values. *)
Definition spec_find_first_last_non_silent (self : AudioNormalizer)
    (audio_data : list Z) (silence_threshold_db : Z) : Z * Z :=
  find_first_last_non_silent self (List.map Z.abs audio_data)
                             silence_threshold_db.

(** The five tags [convert_audio] accepts. *)
Definition SUPPORTED_FORMATS : list string :=
  ["wav"; "mp3"; "opus"; "flac"; "pcm"]%string.

(** The caller's parameters for one format, as the specification words
    them: the entry of the overrides mapping under that format, if any. *)
Definition caller_keys
    (format_settings : option (gmap string (gmap string setting_value)))
    (fmt : string) : gmap string setting_value :=
  match format_settings with
  | Some fs => default ∅ (fs !! fmt)
  | None => ∅
  end.



(** Two stand-ins for the external writers, for the concrete inputs below:
    one that writes nothing, one that fails. *)
Definition sf_write_nothing (call : sf_call) : result (list byte) := Ok [].

Definition sf_write_failing (call : sf_call) : result (list byte) :=
  Raise (mk_exn "LibsndfileError" "Error opening <_io.BytesIO object>").

Definition wavfile_write_nothing (rate : Z) (data : ndarray)
  : result (list byte) := Ok [].

(** The binary32 value [1.0]. *)
Definition one32 : spec_float := S754_finite false 8388608 (- 23).

(** A canonical binary32 value that is neither NaN nor infinite. *)
Definition finite_float32 (x : spec_float) : bool :=
  Float32.valid x && Float32.is_finite x.

(** [all_pos d f]: [f] holds of every positive number of at most [d + 1]
    binary digits. *)
Fixpoint all_pos (d : nat) (f : positive -> bool) : bool :=
  match d with
  | O => f xH
  | S d' =>
      f xH && all_pos d' (fun p => f p~0%positive)
           && all_pos d' (fun p => f p~1%positive)
  end.

(** A shift record that carries no rounding information. *)
Definition exact_record (m : Z) : shr_record :=
  {| shr_m := m; shr_r := false; shr_s := false |}.

(** [at_most N sx r]: [r] has sign [sx] and magnitude at most the integer
    [N]. *)
Definition at_most (N : Z) (sx : bool) (r : spec_float) : Prop :=
  match r with
  | S754_zero s => s = sx
  | S754_finite s m e => s = sx /\ e <= 0 /\ Z.pos m <= N * 2 ^ (- e)
  | S754_infinity _ | S754_nan => False
  end.

(** The values [np.abs] produces from finite binary32 values. *)
Definition magnitude (x : spec_float) : Prop :=
  match x with
  | S754_zero false => True
  | S754_finite false m e => bounded Float32.prec Float32.emax m e = true
  | _ => False
  end.

(** The order of magnitudes, read off their canonical representation. *)
Definition mag_le (a b : spec_float) : Prop :=
  match a, b with
  | S754_zero _, (S754_zero _ | S754_finite _ _ _) => True
  | S754_finite _ m1 e1, S754_finite _ m2 e2 =>
      e1 < e2 \/ (e1 = e2 /\ (m1 <= m2)%positive)
  | _, _ => False
  end.

(** A positive or negative zero. *)
Definition is_zero32 (x : spec_float) : bool :=
  match x with
  | S754_zero _ => true
  | _ => false
  end.

(** The sign bit of a value that is not a NaN. *)
Definition sign_bit (x : spec_float) : bool :=
  match x with
  | S754_zero s | S754_infinity s | S754_finite s _ _ => s
  | S754_nan => false
  end.

(** The thresholds at which [10 ** (silence_threshold_db / 20)] evaluates
    to a float.  Above 6165 the power overflows ([10 ** 308.25] is below
    the largest binary64, [10 ** 308.3] above it), and from
    [-20 * (2 ^ 1024 - 2 ^ 970)] downwards the true division does; Python
    raises [OverflowError] in both cases. *)
Definition threshold_evaluates (silence_threshold_db : Z) : bool :=
  (- (20 * (2 ^ 1024 - 2 ^ 970)) <? silence_threshold_db)
  && (silence_threshold_db <=? 6165).

(** A duration whose sample count at 24000 samples per second is an
    integer that binary64 represents. *)
Definition exact_sample_count (ms : Z) : Prop := Z.abs (24 * ms) <= 2 ^ 53.

(** * Properties *)

(** ** Binary32 rounding never crosses a representable integer bound *)

Section RoundingBounds.

Local Abbreviation prec := Float32.prec.
Local Abbreviation emax := Float32.emax.

Lemma digits2_pos_bounds (m : positive) :
  2 ^ (Z.pos (digits2_pos m) - 1) <= Z.pos m < 2 ^ Z.pos (digits2_pos m).
Proof.
  induction m as [m IH | m IH | ]; cbn [digits2_pos].
  - rewrite Pos2Z.inj_succ.
    replace (Z.succ (Z.pos (digits2_pos m)) - 1)
      with (Z.succ (Z.pos (digits2_pos m) - 1)) by lia.
    rewrite !Z.pow_succ_r by lia. lia.
  - rewrite Pos2Z.inj_succ.
    replace (Z.succ (Z.pos (digits2_pos m)) - 1)
      with (Z.succ (Z.pos (digits2_pos m) - 1)) by lia.
    rewrite !Z.pow_succ_r by lia. lia.
  - cbn. lia.
Qed.

(** A non-negative [m] below [2 ^ k] has at most [k] binary digits. *)
Lemma Zdigits2_le (m k : Z) : 0 <= m -> 0 <= k -> m < 2 ^ k -> Zdigits2 m <= k.
Proof.
  intros Hm Hk Hlt. destruct m as [ | p | p ]; cbn; try lia.
  destruct (Z_lt_le_dec k (Z.pos (digits2_pos p))) as [Hgt | ]; [ | lia ].
  pose proof (digits2_pos_bounds p) as [Hlo _].
  assert (2 ^ k <= 2 ^ (Z.pos (digits2_pos p) - 1))
    by (apply Z.pow_le_mono_r; lia).
  lia.
Qed.

Lemma pow2_xO (p : positive) : 2 ^ Z.pos p~0 = 2 ^ Z.pos p * 2 ^ Z.pos p.
Proof. rewrite <- Z.pow_add_r by lia. f_equal. lia. Qed.

Lemma pow2_xI (p : positive) :
  2 ^ Z.pos p~1 = 2 * (2 ^ Z.pos p * 2 ^ Z.pos p).
Proof.
  rewrite <- Z.pow_add_r, <- Z.pow_succ_r by lia. f_equal. lia.
Qed.

Lemma shr_1_m (mrs : shr_record) :
  0 <= shr_m mrs -> shr_m (shr_1 mrs) = shr_m mrs / 2.
Proof.
  destruct mrs as [m r s]. cbn [shr_m]. intros Hm.
  destruct m as [ | p | p ]; [ reflexivity | | lia ].
  destruct p as [p | p | ]; cbn [shr_1 shr_m].
  - apply Z.div_unique with (r := 1); lia.
  - apply Z.div_unique with (r := 0); lia.
  - reflexivity.
Qed.

Lemma iter_shr_1_m (p : positive) : forall mrs,
  0 <= shr_m mrs ->
  shr_m (SpecFloat.iter_pos shr_1 p mrs) = shr_m mrs / 2 ^ Z.pos p.
Proof.
  induction p as [p IH | p IH | ]; intros mrs Hm; cbn [SpecFloat.iter_pos].
  - assert (H1 : 0 <= shr_m (shr_1 mrs))
      by (rewrite shr_1_m by assumption; apply Z.div_pos; lia).
    assert (H2 : 0 <= shr_m (SpecFloat.iter_pos shr_1 p (shr_1 mrs)))
      by (rewrite IH by assumption; apply Z.div_pos; lia).
    rewrite (IH _ H2), (IH _ H1), shr_1_m by assumption.
    rewrite !Z.div_div by lia. f_equal.
    rewrite pow2_xI. lia.
  - assert (H1 : 0 <= shr_m (SpecFloat.iter_pos shr_1 p mrs))
      by (rewrite IH by assumption; apply Z.div_pos; lia).
    rewrite (IH _ H1), (IH _ Hm).
    rewrite Z.div_div by lia. f_equal.
    rewrite pow2_xO. lia.
  - rewrite shr_1_m by assumption. reflexivity.
Qed.

Lemma shr_1_exact (c : Z) :
  0 <= c -> shr_1 (exact_record (2 * c)) = exact_record c.
Proof.
  intros Hc. destruct c as [ | q | q ]; [ reflexivity | reflexivity | lia ].
Qed.

(** Shifting out bits that are all zero leaves no rounding information. *)
Lemma iter_shr_1_exact (p : positive) : forall c,
  0 <= c ->
  SpecFloat.iter_pos shr_1 p (exact_record (c * 2 ^ Z.pos p)) = exact_record c.
Proof.
  induction p as [p IH | p IH | ]; intros c Hc; cbn [SpecFloat.iter_pos].
  - replace (c * 2 ^ Z.pos p~1) with (2 * ((c * 2 ^ Z.pos p) * 2 ^ Z.pos p)).
    + rewrite shr_1_exact by nia.
      rewrite IH by nia. apply IH. assumption.
    + rewrite pow2_xI. lia.
  - replace (c * 2 ^ Z.pos p~0) with ((c * 2 ^ Z.pos p) * 2 ^ Z.pos p).
    + rewrite IH by nia. apply IH. assumption.
    + rewrite pow2_xO. lia.
  - replace (c * 2 ^ 1) with (2 * c) by lia. apply shr_1_exact. assumption.
Qed.

(** [shr] divides the mantissa by [2 ^ n] (rounding down) and adds [n] to
    the exponent; it does nothing for [n <= 0]. *)
Lemma shr_spec (mrs : shr_record) (e n : Z) :
  0 <= shr_m mrs ->
  snd (shr mrs e n) = e + Z.max n 0 /\
  shr_m (fst (shr mrs e n)) = shr_m mrs / 2 ^ Z.max n 0.
Proof.
  intros Hm. destruct n as [ | p | p ]; cbn [shr fst snd].
  - rewrite Z.max_id, Z.add_0_r, Z.pow_0_r, Z.div_1_r. auto.
  - rewrite Z.max_l by lia. split; [ reflexivity | ].
    apply iter_shr_1_m. assumption.
  - rewrite Z.max_r by lia. rewrite Z.add_0_r, Z.pow_0_r, Z.div_1_r. auto.
Qed.

Lemma shr_exact (c e n : Z) :
  0 <= c ->
  fst (shr (exact_record (c * 2 ^ Z.max n 0)) e n) = exact_record c.
Proof.
  intros Hc. destruct n as [ | p | p ]; cbn [shr fst].
  - rewrite Z.max_id, Z.pow_0_r, Z.mul_1_r. reflexivity.
  - rewrite Z.max_l by lia. apply iter_shr_1_exact. assumption.
  - rewrite Z.max_r by lia. rewrite Z.pow_0_r, Z.mul_1_r. reflexivity.
Qed.

Lemma shr_record_of_loc_m (m : Z) (l : location) :
  shr_m (shr_record_of_loc m l) = m.
Proof. destruct l as [ | [ | | ] ]; reflexivity. Qed.

Lemma round_nearest_even_range (m : Z) (l : location) :
  m <= round_nearest_even m l <= m + 1.
Proof.
  destruct l as [ | [ | | ] ]; cbn [round_nearest_even];
    try destruct (Z.even m); lia.
Qed.

Lemma fexp_nonpos (k : Z) : k <= prec -> fexp prec emax k <= 0.
Proof. unfold fexp, emin, Float32.prec, Float32.emax. lia. Qed.

Lemma pow2_split (a b : Z) : b <= a -> a <= 0 ->
  2 ^ (- b) = 2 ^ (- a) * 2 ^ (a - b).
Proof.
  intros. rewrite <- Z.pow_add_r by lia. f_equal. lia.
Qed.

(** The shift that brings a mantissa to its canonical exponent. *)
Lemma shr_fexp_bound (m e : Z) (l : location) (N : Z) :
  0 <= m -> e <= 0 -> 0 <= N < 2 ^ prec -> m <= N * 2 ^ (- e) ->
  e <= snd (shr_fexp prec emax m e l) <= 0 /\
  shr_m (fst (shr_fexp prec emax m e l))
    = m / 2 ^ (snd (shr_fexp prec emax m e l) - e) /\
  (l = loc_Exact ->
   forall c, 0 <= c ->
     m = c * 2 ^ (snd (shr_fexp prec emax m e l) - e) ->
     fst (shr_fexp prec emax m e l) = exact_record c).
Proof.
  intros Hm He HN Hle. unfold shr_fexp.
  set (n := fexp prec emax (Zdigits2 m + e) - e).
  destruct (shr_spec (shr_record_of_loc m l) e n) as [Hsnd Hfst];
    [ rewrite shr_record_of_loc_m; assumption | ].
  rewrite shr_record_of_loc_m in Hfst. rewrite Hsnd.
  replace (e + Z.max n 0 - e) with (Z.max n 0) by lia.
  assert (Hdig : Zdigits2 m + e <= prec).
  { assert (Zdigits2 m <= prec - e); [ | lia ].
    apply Zdigits2_le; [ assumption | unfold Float32.prec; lia | ].
    replace (prec - e) with (prec + - e) by lia.
    rewrite Z.pow_add_r by (unfold Float32.prec; lia).
    assert (0 < 2 ^ (- e)) by (apply Z.pow_pos_nonneg; lia). nia. }
  pose proof (fexp_nonpos _ Hdig) as Hf.
  split; [ lia | ]. split; [ assumption | ].
  intros -> c Hc Hmc.
  change (shr_record_of_loc m loc_Exact) with (exact_record m).
  clearbody n. subst m. apply shr_exact. assumption.
Qed.

(** Rounding to nearest never exceeds an integer [N < 2 ^ prec] that
    bounds the exact value: [N] is itself representable.  The exact value
    is in [[mx * 2 ^ ex, (mx + 1) * 2 ^ ex)], and is [mx * 2 ^ ex] when
    [lx = loc_Exact]. *)
Lemma binary_round_aux_bound (sx : bool) (mx ex : Z) (lx : location)
    (N : Z) :
  0 <= mx -> ex <= 0 -> 1 <= N < 2 ^ prec ->
  (mx + 1 <= N * 2 ^ (- ex) \/ (mx = N * 2 ^ (- ex) /\ lx = loc_Exact)) ->
  at_most N sx (binary_round_aux prec emax sx mx ex lx).
Proof.
  intros Hmx Hex HN Hcase. unfold binary_round_aux.
  destruct (shr_fexp_bound mx ex lx N) as (He1 & Hm1 & Hx1);
    [ assumption | assumption | lia | lia | ].
  destruct (shr_fexp prec emax mx ex lx) as [mrs1 e1].
  cbn [fst snd] in He1, Hm1, Hx1.
  set (m1 := round_nearest_even (shr_m mrs1) (loc_of_shr_record mrs1)).
  assert (Hp1 : 0 < 2 ^ (e1 - ex)) by (apply Z.pow_pos_nonneg; lia).
  assert (Hq1 : 0 < 2 ^ (- e1)) by (apply Z.pow_pos_nonneg; lia).
  pose proof (pow2_split e1 ex ltac:(lia) ltac:(lia)) as Hsplit.
  assert (Hm1r : 0 <= m1 <= N * 2 ^ (- e1)).
  { pose proof (round_nearest_even_range (shr_m mrs1)
                  (loc_of_shr_record mrs1)) as Hr. fold m1 in Hr.
    assert (0 <= shr_m mrs1)
      by (rewrite Hm1; apply Z.div_pos; lia).
    split; [ lia | ].
    destruct Hcase as [Hlt | [Heq ->] ].
    - assert (shr_m mrs1 < N * 2 ^ (- e1)); [ | lia ].
      rewrite Hm1. apply Z.div_lt_upper_bound; [ assumption | ].
      rewrite Hsplit in Hlt. nia.
    - assert (Hmrs : mrs1 = exact_record (N * 2 ^ (- e1)))
        by (apply Hx1; [ reflexivity | nia | rewrite Heq, Hsplit; lia ]).
      unfold m1. rewrite Hmrs. cbn. lia. }
  destruct (shr_fexp_bound m1 e1 loc_Exact N) as (He2 & Hm2 & _);
    [ lia | lia | lia | lia | ].
  destruct (shr_fexp prec emax m1 e1 loc_Exact) as [mrs2 e2].
  cbn [fst snd] in He2, Hm2.
  assert (Hp2 : 0 < 2 ^ (e2 - e1)) by (apply Z.pow_pos_nonneg; lia).
  pose proof (pow2_split e2 e1 ltac:(lia) ltac:(lia)) as Hsplit2.
  assert (Hm2r : 0 <= shr_m mrs2 <= N * 2 ^ (- e2)).
  { rewrite Hm2. split; [ apply Z.div_pos; lia | ].
    apply Z.div_le_upper_bound; [ assumption | ].
    rewrite Hsplit2 in Hm1r. nia. }
  destruct (shr_m mrs2) as [ | m2 | m2 ]; cbn [at_most].
  - reflexivity.
  - replace (e2 <=? emax - prec) with true
      by (symmetry; apply Z.leb_le; unfold Float32.prec, Float32.emax; lia).
    cbn [at_most]. repeat split; lia.
  - lia.
Qed.

Lemma new_location_exact (n : Z) : new_location n 0 = loc_Exact.
Proof.
  unfold new_location, new_location_even, new_location_odd.
  destruct (Z.even n); reflexivity.
Qed.

(** The integer quotient that [SFdiv] rounds: for a dividend no larger
    than the divisor it is at most [2 ^ (- e')], with equality only when
    the division is exact. *)
Lemma div_core_bound (m1 m2 : positive) (e1 e2 : Z) :
  e1 <= e2 -> Z.pos m1 <= Z.pos m2 * 2 ^ (e2 - e1) ->
  let '(q, e', l) :=
    SFdiv_core_binary prec emax (Z.pos m1) e1 (Z.pos m2) e2 in
  0 <= q /\ e' <= 0 /\
  (q + 1 <= 1 * 2 ^ (- e') \/ (q = 1 * 2 ^ (- e') /\ l = loc_Exact)).
Proof.
  intros He Hle. unfold SFdiv_core_binary.
  set (e' := Z.min _ (e1 - e2)).
  assert (He' : e' <= e1 - e2) by apply Z.le_min_r.
  set (sh := e1 - e2 - e').
  set (m' := match sh with Z.pos _ => _ | Z0 => _ | Z.neg _ => _ end).
  assert (Hm' : m' = Z.pos m1 * 2 ^ sh).
  { unfold m'. destruct sh as [ | k | k ] eqn:Hsh.
    - rewrite Z.pow_0_r. lia.
    - apply Z.shiftl_mul_pow2. lia.
    - lia. }
  clearbody m'.
  assert (Hbound : m' <= Z.pos m2 * 2 ^ (- e')).
  { replace (- e') with ((e2 - e1) + sh) by (unfold sh; lia).
    rewrite Z.pow_add_r by (unfold sh; lia). rewrite Hm'.
    assert (0 < 2 ^ sh) by (apply Z.pow_pos_nonneg; unfold sh; lia).
    nia. }
  pose proof (Z_div_mod m' (Z.pos m2) ltac:(lia)) as Hdiv.
  destruct (Z.div_eucl m' (Z.pos m2)) as [q r].
  destruct Hdiv as [Hqr Hr].
  assert (0 < 2 ^ sh) by (apply Z.pow_pos_nonneg; unfold sh; lia).
  assert (0 < 2 ^ (- e')) by (apply Z.pow_pos_nonneg; lia).
  split; [ nia | ]. split; [ lia | ].
  rewrite Z.mul_1_l.
  destruct (Z_lt_le_dec q (2 ^ (- e'))) as [Hlt | Hge]; [ left; lia | ].
  right. assert (q = 2 ^ (- e')) by nia.
  split; [ assumption | ].
  assert (r = 0) by nia. subst r. apply new_location_exact.
Qed.

Lemma bounded_canonical (m : positive) (e : Z) :
  bounded prec emax m e = true ->
  e = Z.max (Z.pos (digits2_pos m) + e - 24) (- 149).
Proof.
  unfold bounded, canonical_mantissa, fexp, emin, Float32.prec,
    Float32.emax.
  intros [Hc _]%andb_prop. apply Z.eqb_eq in Hc. lia.
Qed.

(** On canonical positive values, [SFleb] is the order of the values. *)
Lemma SFleb_finite_order (m1 m2 : positive) (e1 e2 : Z) :
  bounded prec emax m1 e1 = true -> bounded prec emax m2 e2 = true ->
  SFleb (S754_finite false m1 e1) (S754_finite false m2 e2) = true ->
  e1 <= e2 /\ Z.pos m1 <= Z.pos m2 * 2 ^ (e2 - e1).
Proof.
  intros Hb1%bounded_canonical Hb2%bounded_canonical.
  unfold SFleb, SFcompare.
  pose proof (digits2_pos_bounds m1) as [_ Hhi1].
  pose proof (digits2_pos_bounds m2) as [Hlo2 _].
  destruct (Z.compare_spec e1 e2) as [Heq | Hlt | Hgt].
  - change (Pos.compare_cont Eq m1 m2) with (Pos.compare m1 m2).
    subst e2. rewrite Z.sub_diag, Z.pow_0_r.
    destruct (Pos.compare_spec m1 m2); intros; try discriminate; lia.
  - intros _. split; [ lia | ].
    assert (Hd1 : Z.pos (digits2_pos m1) <= 24) by lia.
    assert (Hd2 : Z.pos (digits2_pos m2) = 24) by lia.
    rewrite Hd2 in Hlo2.
    assert (2 ^ Z.pos (digits2_pos m1) <= 2 ^ 24)
      by (apply Z.pow_le_mono_r; lia).
    assert (2 ^ 1 <= 2 ^ (e2 - e1)) by (apply Z.pow_le_mono_r; lia).
    change (2 ^ (24 - 1)) with 8388608 in Hlo2.
    change (2 ^ 24) with 16777216 in *. change (2 ^ 1) with 2 in *.
    nia.
  - discriminate.
Qed.

Lemma wrap_int16_small (z : Z) : in_int16 z -> wrap_int16 z = z.
Proof.
  unfold in_int16, int16_min, int16_max, wrap_int16. intros Hz.
  rewrite Z.mod_small by lia. lia.
Qed.

Lemma float32_of_int16_max :
  Float32.of_Z int16_max = S754_finite false 16776704 (- 9).
Proof. reflexivity. Qed.

(** Scaling a value of magnitude at most one by [int16_max] and casting
    stays within [[- int16_max, int16_max]]. *)
Lemma quantize_at_most (q : spec_float) (s : bool) :
  at_most 1 s q -> - int16_max <= quantize q <= int16_max.
Proof.
  unfold quantize, float32_to_int16. rewrite float32_of_int16_max.
  destruct q as [ s' | s' | | s' m e ]; cbn [at_most]; try contradiction.
  - intros _. destruct s'; vm_compute; split; discriminate.
  - intros (_ & He & Hm). unfold Float32.mul. cbn [SFmul].
    assert (Hp : 0 < 2 ^ (- e)) by (apply Z.pow_pos_nonneg; lia).
    pose proof (binary_round_aux_bound (xorb s' false)
      (Z.pos (m * 16776704)) (e + - 9) loc_Exact 32767) as Hr.
    assert (Hsplit : 2 ^ (- (e + - 9)) = 512 * 2 ^ (- e)).
    { replace (- (e + - 9)) with (9 + - e) by lia.
      rewrite Z.pow_add_r by lia. reflexivity. }
    rewrite Hsplit in Hr.
    specialize (Hr ltac:(lia) ltac:(lia)
                   ltac:(unfold Float32.prec; cbn; lia)).
    rewrite Pos2Z.inj_mul in Hr.
    specialize (Hr ltac:(
      destruct (Z.eq_dec (Z.pos m) (2 ^ (- e)));
      [ right; split; [ lia | reflexivity ] | left; lia ])).
    rewrite <- Pos2Z.inj_mul in Hr.
    destruct (binary_round_aux prec emax (xorb s' false)
                (Z.pos (m * 16776704)) (e + - 9) loc_Exact)
      as [ s2 | s2 | | s2 m2 e2 ]; cbn [at_most] in Hr; try contradiction.
    + vm_compute. split; discriminate.
    + destruct Hr as (_ & He2 & Hm2). cbn [Float32.trunc].
      assert (Hq : 0 <= Z.shiftl (Z.pos m2) e2 <= int16_max).
      { unfold int16_max. replace e2 with (- (- e2)) at 1 2 by lia.
        rewrite Z.shiftl_opp_r, Z.shiftr_div_pow2 by lia.
        assert (0 < 2 ^ (- e2)) by (apply Z.pow_pos_nonneg; lia).
        split; [ apply Z.div_pos; lia | ].
        apply Z.div_le_upper_bound; lia. }
      unfold int16_max in *.
      rewrite wrap_int16_small
        by (unfold in_int16, int16_min, int16_max, cond_Zopp;
            destruct s2; lia).
      unfold cond_Zopp. destruct s2; lia.
Qed.

(** Dividing a finite value by a canonical positive value of at least its
    magnitude gives a value of magnitude at most one. *)
Lemma div_at_most (x : spec_float) (mp : positive) (ep : Z) :
  Float32.valid x = true -> Float32.is_finite x = true ->
  bounded prec emax mp ep = true ->
  SFleb (Float32.abs x) (S754_finite false mp ep) = true ->
  exists s, at_most 1 s (Float32.div x (S754_finite false mp ep)).
Proof.
  intros Hv Hf Hbp Hle.
  destruct x as [ s | s | | s m e ]; try discriminate.
  - exists (xorb s false). reflexivity.
  - exists (xorb s false). cbn in Hv.
    destruct (SFleb_finite_order m mp e ep Hv Hbp Hle) as [He Hm].
    unfold Float32.div. cbn [SFdiv].
    pose proof (div_core_bound m mp e ep He Hm) as Hcore.
    destruct (SFdiv_core_binary prec emax (Z.pos m) e (Z.pos mp) ep)
      as [[q e'] l].
    destruct Hcore as (Hq & He' & Hcase).
    apply binary_round_aux_bound; try assumption.
    unfold Float32.prec. cbn. lia.
Qed.

Lemma quantize_div_bound (x : spec_float) (mp : positive) (ep : Z) :
  Float32.valid x = true -> Float32.is_finite x = true ->
  bounded prec emax mp ep = true ->
  SFleb (Float32.abs x) (S754_finite false mp ep) = true ->
  - int16_max <= quantize (Float32.div x (S754_finite false mp ep))
    <= int16_max.
Proof.
  intros Hv Hf Hbp Hle.
  destruct (div_at_most x mp ep Hv Hf Hbp Hle) as [s Hs].
  exact (quantize_at_most _ s Hs).
Qed.

End RoundingBounds.

(** ** The peak of a chunk *)

Section Peak.

Lemma magnitude_abs (x : spec_float) :
  Float32.valid x = true -> Float32.is_finite x = true ->
  magnitude (Float32.abs x).
Proof. destruct x; cbn; intros; try discriminate; auto. Qed.

Lemma mag_le_refl (a : spec_float) : magnitude a -> mag_le a a.
Proof.
  destruct a as [ [ | ] | | | [ | ] m e ]; cbn; try contradiction; auto.
  intros _. right. split; [ reflexivity | apply Pos.le_refl ].
Qed.

Lemma mag_le_trans (a b c : spec_float) :
  mag_le a b -> mag_le b c -> mag_le a c.
Proof.
  destruct a, b, c; cbn; try contradiction; auto; lia.
Qed.

Lemma mag_le_SFleb (a b : spec_float) :
  magnitude a -> magnitude b -> mag_le a b -> SFleb a b = true.
Proof.
  destruct a as [ [ | ] | | | [ | ] m1 e1 ], b as [ [ | ] | | | [ | ] m2 e2 ];
    cbn; try contradiction; auto.
  intros _ _ Hle. unfold SFleb, SFcompare.
  destruct (Z.compare_spec e1 e2); [ | reflexivity | lia ].
  change (Pos.compare_cont Eq m1 m2) with (Pos.compare m1 m2).
  destruct (Pos.compare_spec m1 m2); try reflexivity; lia.
Qed.

Lemma maximum_spec (a b : spec_float) :
  magnitude a -> magnitude b ->
  (Float32.maximum a b = a \/ Float32.maximum a b = b) /\
  mag_le a (Float32.maximum a b) /\ mag_le b (Float32.maximum a b).
Proof.
  intros Ha Hb. pose proof (mag_le_refl a Ha). pose proof (mag_le_refl b Hb).
  destruct a as [ [ | ] | | | [ | ] m1 e1 ], b as [ [ | ] | | | [ | ] m2 e2 ];
    cbn in Ha, Hb; try contradiction; cbn; auto.
  unfold Float32.maximum, SFcompare.
  destruct (Z.compare_spec e1 e2).
  - change (PosDef.Pos.compare_cont Eq m1 m2) with (Pos.compare m1 m2).
    destruct (Pos.compare_spec m1 m2); repeat split; auto; lia.
  - repeat split; auto; lia.
  - repeat split; auto; lia.
Qed.

Lemma fold_maximum_spec (xs : list spec_float) : forall x0,
  magnitude x0 -> Forall magnitude xs ->
  let peak := fold_left Float32.maximum xs x0 in
  In peak (x0 :: xs) /\ mag_le x0 peak /\ Forall (fun x => mag_le x peak) xs.
Proof.
  induction xs as [ | x xs IH ]; intros x0 H0 Hxs; cbn [fold_left].
  - repeat split; [ left; reflexivity | apply mag_le_refl; assumption
                  | constructor ].
  - apply Forall_cons_1 in Hxs as [Hx Hxs].
    destruct (maximum_spec x0 x H0 Hx) as (Hsel & Hl0 & Hlx).
    assert (Hm : magnitude (Float32.maximum x0 x))
      by (destruct Hsel as [-> | ->]; assumption).
    destruct (IH _ Hm Hxs) as (Hin & Hle & Hall).
    repeat split.
    + destruct Hin as [Heq | Hin]; [ | right; right; assumption ].
      rewrite <- Heq. destruct Hsel as [-> | ->]; cbn; auto.
    + eapply mag_le_trans; eassumption.
    + constructor; [ eapply mag_le_trans; eassumption | assumption ].
Qed.

End Peak.

(** ** Slices *)

Section Slices.

Context {A : Type}.
Implicit Types a : list A.

Lemma py_slice_length_le a (start stop : Z) :
  (length (py_slice a start stop) <= length a)%nat.
Proof.
  unfold py_slice. rewrite length_take, length_drop. lia.
Qed.

Lemma py_slice_Forall (P : A -> Prop) a (start stop : Z) :
  Forall P a -> Forall P (py_slice a start stop).
Proof.
  intros H. unfold py_slice. apply Forall_take, Forall_drop, H.
Qed.

(** Within the array, a slice has [stop - start] elements. *)
Lemma py_slice_length a (start stop : Z) :
  0 <= start <= stop -> stop <= Z.of_nat (length a) ->
  Z.of_nat (length (py_slice a start stop)) = stop - start.
Proof.
  intros H1 H2. unfold py_slice, py_slice_bound.
  destruct (Z.ltb_spec start 0), (Z.ltb_spec stop 0); try lia.
  rewrite length_take, length_drop. lia.
Qed.

Lemma py_slice_full a : py_slice a 0 (Z.of_nat (length a)) = a.
Proof.
  unfold py_slice, py_slice_bound.
  destruct (Z.ltb_spec (Z.of_nat (length a)) 0); [ lia | ].
  cbn [Z.ltb Z.compare]. rewrite Z.min_id.
  replace (Z.min 0 (Z.of_nat (length a))) with 0 by lia.
  cbn [Z.to_nat]. rewrite drop_0. apply take_ge. lia.
Qed.

(** [a[:-n]] for [0 < n < len(a)] drops the last [n] elements. *)
Lemma py_slice_drop_last a (n : Z) :
  0 < n < Z.of_nat (length a) ->
  py_slice a 0 (- n) = take (length a - Z.to_nat n) a.
Proof.
  intros Hn. unfold py_slice, py_slice_bound.
  destruct (Z.ltb_spec (- n) 0); [ | lia ].
  cbn [Z.ltb Z.compare].
  replace (Z.min 0 (Z.of_nat (length a))) with 0 by lia.
  cbn [Z.to_nat]. rewrite drop_0. f_equal. lia.
Qed.

(** [a[:-0]] is [a[:0]]: the empty array. *)
Lemma py_slice_minus_zero a : py_slice a 0 (- 0) = [].
Proof.
  unfold py_slice, py_slice_bound.
  change (- 0) with 0. change (0 <? 0) with false. cbv iota.
  replace (Z.min 0 (Z.of_nat (length a))) with 0 by lia.
  apply take_0.
Qed.

Lemma trim_chunk_end_length_le (self : AudioNormalizer) a (last : bool) :
  (length (trim_chunk_end self a last) <= length a)%nat.
Proof.
  unfold trim_chunk_end.
  destruct (negb last && _); [ apply py_slice_length_le | lia ].
Qed.

Lemma trim_chunk_end_Forall (P : A -> Prop) (self : AudioNormalizer) a
    (last : bool) :
  Forall P a -> Forall P (trim_chunk_end self a last).
Proof.
  intros H. unfold trim_chunk_end.
  destruct (negb last && _); [ apply py_slice_Forall | ]; assumption.
Qed.

(** The three cases of the end trim, for a positive trim length. *)
Lemma trim_chunk_end_positive (self : AudioNormalizer) a (last : bool) :
  0 < samples_to_trim self ->
  trim_chunk_end self a last =
    if last then a
    else if samples_to_trim self <? Z.of_nat (length a)
         then take (length a - Z.to_nat (samples_to_trim self)) a
         else a.
Proof.
  intros Hpos. unfold trim_chunk_end. destruct last; cbn [negb andb].
  - reflexivity.
  - destruct (Z.ltb_spec (samples_to_trim self) (Z.of_nat (length a)));
      [ apply py_slice_drop_last; lia | reflexivity ].
Qed.


End Slices.

(** ** The threshold comparison *)

Lemma Rpower_10_nonneg (d : Z) : 0 <= d -> Rpower 10 (IZR d) = IZR (10 ^ d).
Proof.
  intros Hd. rewrite <- (Z2Nat.id d Hd) at 1. rewrite <- INR_IZR_INZ.
  rewrite Rpower_pow by lra. rewrite pow_IZR. rewrite Z2Nat.id by lia.
  reflexivity.
Qed.

Lemma amplitude_threshold_pow (db : Z) :
  (amplitude_threshold db ^ 20
   = IZR (int16_max ^ 20) * Rpower 10 (IZR db))%R.
Proof.
  unfold amplitude_threshold. rewrite Rpow_mult_distr. rewrite pow_IZR.
  f_equal.
  rewrite <- (Rpower_pow 20) by apply exp_pos.
  rewrite Rpower_mult. f_equal.
  rewrite (INR_IZR_INZ 20). simpl (Z.of_nat 20). field.
Qed.

Lemma pow20_lt (a b : R) :
  (0 < a)%R -> (0 < b)%R -> (a < b)%R <-> (a ^ 20 < b ^ 20)%R.
Proof.
  intros Ha Hb. split.
  - intros Hlt. rewrite <- !(Rpower_pow 20) by assumption.
    apply Rlt_Rpower_l; [ | lra ]. apply lt_0_INR. lia.
  - intros Hlt. destruct (Rlt_le_dec a b) as [ | Hle ]; [ assumption | ].
    exfalso. apply (Rlt_irrefl (a ^ 20)).
    eapply Rlt_le_trans; [ exact Hlt | ].
    apply pow_incr. lra.
Qed.

(** [exceeds_threshold] decides the comparison with the threshold taken
    in exact arithmetic. *)
Lemma exceeds_threshold_real (sample db : Z) :
  exceeds_threshold sample db = true <->
  (amplitude_threshold db < IZR sample)%R.
Proof.
  assert (HT : (0 < amplitude_threshold db)%R).
  { unfold amplitude_threshold. apply Rmult_lt_0_compat; [ | apply exp_pos ].
    apply IZR_lt. reflexivity. }
  unfold exceeds_threshold.
  destruct (Z.ltb_spec 0 sample) as [Hpos | Hnp]; cbn [andb].
  2: { split; [ discriminate | ]. intros H. apply IZR_le in Hnp. lra. }
  assert (Ha : (0 < IZR sample)%R) by (apply IZR_lt; assumption).
  rewrite (pow20_lt _ _ HT Ha), amplitude_threshold_pow, pow_IZR.
  change (Z.of_nat 20) with 20.
  destruct (Z.leb_spec 0 db) as [Hd | Hd].
  - rewrite Rpower_10_nonneg by assumption. rewrite <- mult_IZR.
    rewrite Z.ltb_lt. split; [ apply IZR_lt | apply lt_IZR ].
  - replace (IZR db) with (- IZR (- db))%R by (rewrite opp_IZR; lra).
    rewrite Rpower_Ropp, Rpower_10_nonneg by lia.
    assert (Hp : (0 < IZR (10 ^ (- db)))%R).
    { apply IZR_lt. apply Z.pow_pos_nonneg; lia. }
    rewrite Z.ltb_lt. split.
    + intros H%IZR_lt. rewrite mult_IZR in H.
      apply (Rmult_lt_reg_r (IZR (10 ^ (- db)))); [ assumption | ].
      rewrite Rmult_assoc, Rinv_l by lra. lra.
    + intros H. apply lt_IZR. rewrite mult_IZR.
      apply (Rmult_lt_compat_r (IZR (10 ^ (- db)))) in H; [ | assumption ].
      rewrite Rmult_assoc, Rinv_l in H by lra. lra.
Qed.

(** X3.  The default threshold of -45 dBFS lies strictly between the
    integers 184 and 185: a sample is above it exactly when it is at least
    185. *)
Lemma exceeds_threshold_default (sample : Z) :
  exceeds_threshold sample (-45) = (185 <=? sample).
Proof.
  unfold exceeds_threshold. change (0 <=? -45) with false. cbv iota.
  change (- -45) with 45.
  destruct (Z.leb_spec 185 sample) as [Hge | Hlt].
  - replace (0 <? sample) with true by (symmetry; apply Z.ltb_lt; lia).
    cbn [andb]. apply Z.ltb_lt.
    assert (185 ^ 20 <= sample ^ 20) by (apply Z.pow_le_mono_l; lia).
    assert (int16_max ^ 20 < 185 ^ 20 * 10 ^ 45) by (vm_compute; reflexivity).
    assert (0 < 10 ^ 45) by (vm_compute; reflexivity).
    nia.
  - destruct (Z.ltb_spec 0 sample) as [Hpos | ]; [ | reflexivity ].
    cbn [andb]. apply Z.ltb_ge.
    assert (sample ^ 20 <= 184 ^ 20) by (apply Z.pow_le_mono_l; lia).
    assert (184 ^ 20 * 10 ^ 45 <= int16_max ^ 20) by (vm_compute; discriminate).
    assert (0 < 10 ^ 45) by (vm_compute; reflexivity).
    nia.
Qed.

(** ** The silence locator *)

Section Locator.

Variable db : Z.

Lemma scan_forward_None (l : list Z) : forall X,
  scan_forward db l X = None <->
  Forall (fun s => exceeds_threshold s db = false) l.
Proof.
  induction l as [ | s l IH ]; intros X; cbn [scan_forward].
  - split; [ constructor | reflexivity ].
  - destruct (exceeds_threshold s db) eqn:Hs.
    + split; [ discriminate | ].
      intros H. apply Forall_cons_1 in H as [H _]. congruence.
    + rewrite IH. split; [ intros; constructor; assumption | ].
      intros H. apply Forall_cons_1 in H as [_ H]. exact H.
Qed.

Lemma scan_backward_None (l : list Z) : forall X,
  scan_backward db l X = None <->
  Forall (fun s => exceeds_threshold s db = false) l.
Proof.
  induction l as [ | s l IH ]; intros X; cbn [scan_backward].
  - split; [ constructor | reflexivity ].
  - destruct (exceeds_threshold s db) eqn:Hs.
    + split; [ discriminate | ].
      intros H. apply Forall_cons_1 in H as [H _]. congruence.
    + rewrite IH. split; [ intros; constructor; assumption | ].
      intros H. apply Forall_cons_1 in H as [_ H]. exact H.
Qed.

(** The forward loop stops at the first sample above the threshold. *)
Lemma scan_forward_Some (l : list Z) : forall X i,
  scan_forward db l X = Some i ->
  exists k : nat,
    i = X + Z.of_nat k /\
    (exists s, l !! k = Some s /\ exceeds_threshold s db = true) /\
    forall k' s', (k' < k)%nat -> l !! k' = Some s' ->
                  exceeds_threshold s' db = false.
Proof.
  induction l as [ | s l IH ]; intros X i H; cbn [scan_forward] in H;
    [ discriminate | ].
  destruct (exceeds_threshold s db) eqn:Hs.
  - injection H as <-. exists 0%nat. split; [ lia | ]. split.
    + exists s. split; [ reflexivity | assumption ].
    + intros k' s' Hk. lia.
  - destruct (IH _ _ H) as (k & -> & Hloud & Hquiet).
    exists (S k). split; [ lia | ]. split; [ exact Hloud | ].
    intros [ | k' ] s' Hk Hlook; cbn in Hlook.
    + congruence.
    + apply (Hquiet k'); [ lia | assumption ].
Qed.

(** The backward loop stops at the first sample above the threshold that
    it visits. *)
Lemma scan_backward_Some (l : list Z) : forall X j,
  scan_backward db l X = Some j ->
  exists k : nat,
    j = X - Z.of_nat k /\
    (exists s, l !! k = Some s /\ exceeds_threshold s db = true) /\
    forall k' s', (k' < k)%nat -> l !! k' = Some s' ->
                  exceeds_threshold s' db = false.
Proof.
  induction l as [ | s l IH ]; intros X j H; cbn [scan_backward] in H;
    [ discriminate | ].
  destruct (exceeds_threshold s db) eqn:Hs.
  - injection H as <-. exists 0%nat. split; [ lia | ]. split.
    + exists s. split; [ reflexivity | assumption ].
    + intros k' s' Hk. lia.
  - destruct (IH _ _ H) as (k & -> & Hloud & Hquiet).
    exists (S k). split; [ lia | ]. split; [ exact Hloud | ].
    intros [ | k' ] s' Hk Hlook; cbn in Hlook.
    + congruence.
    + apply (Hquiet k'); [ lia | assumption ].
Qed.

End Locator.

(** What [find_first_last_non_silent] returns: the whole range when no
    sample is above the threshold; otherwise the padded, clamped range
    around [first] and [last], the least and the greatest index whose
    (signed) sample is above it. *)
Lemma find_first_last_non_silent_cases (self : AudioNormalizer)
    (audio_data : list Z) (db : Z) :
  let len := Z.of_nat (length audio_data) in
  (Forall (fun s => exceeds_threshold s db = false) audio_data /\
   find_first_last_non_silent self audio_data db = (0, len))
  \/
  (exists first last : nat,
     (first <= last < length audio_data)%nat /\
     (exists s, audio_data !! first = Some s /\
                exceeds_threshold s db = true) /\
     (exists s, audio_data !! last = Some s /\
                exceeds_threshold s db = true) /\
     find_first_last_non_silent self audio_data db =
       (Z.max (Z.of_nat first - samples_to_pad_start self) 0,
        Z.min (Z.of_nat last + samples_to_pad_end self) len) /\
     forall k s, audio_data !! k = Some s ->
                 (k < first)%nat \/ (last < k)%nat ->
                 exceeds_threshold s db = false).
Proof.
  intros len. unfold find_first_last_non_silent. fold len.
  destruct (scan_forward db audio_data 0) as [ i | ] eqn:Hf.
  2: { left. split; [ apply (scan_forward_None db _ 0), Hf | reflexivity ]. }
  destruct (scan_backward db (reverse audio_data) (len - 1)) as [ j | ] eqn:Hb.
  2: { left. split; [ | reflexivity ].
       apply Forall_reverse, (scan_backward_None db _ (len - 1)), Hb. }
  right.
  destruct (scan_forward_Some db _ _ _ Hf) as (kf & -> & Hloudf & Hquiet).
  destruct (scan_backward_Some db _ _ _ Hb)
    as (kb & -> & (sb & Hlookb & Hsb) & Hquietb).
  apply reverse_lookup_Some in Hlookb as [Hlookb Hkb].
  exists kf, (length audio_data - S kb)%nat.
  assert (Hle : (kf <= length audio_data - S kb)%nat).
  { destruct (Nat.le_gt_cases kf (length audio_data - S kb)) as [ | Hgt ];
      [ assumption | ].
    specialize (Hquiet _ _ Hgt Hlookb). congruence. }
  split; [ lia | ]. split; [ exact Hloudf | ].
  split; [ exists sb; split; assumption | ].
  split; [ f_equal; f_equal; unfold len; lia | ].
  intros k s Hlook [Hk | Hk]; [ exact (Hquiet _ _ Hk Hlook) | ].
  pose proof (lookup_lt_Some _ _ _ Hlook) as Hklen.
  apply (Hquietb (length audio_data - S k)%nat s); [ lia | ].
  apply reverse_lookup_Some. split; [ | lia ].
  rewrite <- Hlook. f_equal. lia.
Qed.

(** On a buffer without negative samples, taking absolute values changes
    nothing: the locator of the source and the locator of the
    specification agree. *)
Lemma spec_locator_agrees_on_nonnegative (self : AudioNormalizer)
    (audio_data : list Z) (db : Z) :
  Forall (fun s => 0 <= s) audio_data ->
  spec_find_first_last_non_silent self audio_data db
    = find_first_last_non_silent self audio_data db.
Proof.
  intros H. unfold spec_find_first_last_non_silent. f_equal.
  induction H as [ | x xs Hx _ IH ]; [ reflexivity | ].
  cbn [List.map]. rewrite IH, Z.abs_eq by assumption. reflexivity.
Qed.

(** ** Peak normalisation and quantisation *)

Lemma astype_float32_length (a : ndarray) :
  length (astype_float32 a) = ndarray_len a.
Proof. destruct a; cbn; [ apply length_map | reflexivity ]. Qed.

(** An empty chunk makes [np.max] raise. *)
Lemma peak_normalize_empty (a : ndarray) :
  ndarray_len a = 0%nat -> peak_normalize a = Raise np_max_empty_error.
Proof.
  intros Hlen. unfold peak_normalize.
  rewrite <- astype_float32_length in Hlen.
  apply nil_length_inv in Hlen. rewrite Hlen. reflexivity.
Qed.

(** On any other chunk it returns an array of the same length. *)
Lemma peak_normalize_nonempty (a : ndarray) :
  ndarray_len a <> 0%nat ->
  exists audio_float,
    peak_normalize a = Ok audio_float /\
    length audio_float = ndarray_len a.
Proof.
  intros Hlen. unfold peak_normalize.
  rewrite <- astype_float32_length in Hlen |- *.
  destruct (astype_float32 a) as [ | x xs ]; [ contradiction | ].
  cbn [map np_max bind].
  destruct (Float32.gtb _ _); eexists; (split; [ reflexivity | ]);
    cbn [length]; rewrite ?length_map; reflexivity.
Qed.

Lemma all_pos_spec (d : nat) : forall f,
  all_pos d f = true ->
  forall p, (Pos.size_nat p <= S d)%nat -> f p = true.
Proof.
  induction d as [ | d IH ]; intros f H p Hp; cbn [all_pos] in H.
  - destruct p as [ p | p | ]; cbn [Pos.size_nat] in Hp;
      try (destruct p; cbn in Hp; lia).
    assumption.
  - apply andb_prop in H as [H H1]. apply andb_prop in H as [Hx H0].
    destruct p as [ p | p | ]; cbn [Pos.size_nat] in Hp.
    + apply (IH _ H1). lia.
    + apply (IH _ H0). lia.
    + assumption.
Qed.

(** Every [int16] value converts to a finite canonical binary32 value
    (checked on all of them). *)
Lemma of_Z_int16_table :
  all_pos 15 (fun p => finite_float32 (Float32.of_Z (Z.pos p))
                       && finite_float32 (Float32.of_Z (Z.neg p))) = true.
Proof. vm_compute. reflexivity. Qed.

Lemma int16_size (p : positive) :
  (p <= 32768)%positive -> (Pos.size_nat p <= 16)%nat.
Proof.
  intros Hp. change 16%nat with (Pos.size_nat 32768%positive).
  destruct (Pos.eq_dec p 32768%positive) as [-> | Hne]; [ lia | ].
  apply Pos.size_nat_monotone. lia.
Qed.

Lemma of_Z_int16_finite (z : Z) :
  in_int16 z ->
  Float32.valid (Float32.of_Z z) = true /\
  Float32.is_finite (Float32.of_Z z) = true.
Proof.
  unfold in_int16, int16_min, int16_max. intros Hz.
  apply andb_prop. fold (finite_float32 (Float32.of_Z z)).
  destruct z as [ | p | p ]; [ reflexivity | | ].
  - pose proof (all_pos_spec 15 _ of_Z_int16_table p
                  (int16_size p ltac:(lia))) as H.
    apply andb_prop in H as [H _]. exact H.
  - pose proof (all_pos_spec 15 _ of_Z_int16_table p
                  (int16_size p ltac:(lia))) as H.
    apply andb_prop in H as [_ H]. exact H.
Qed.

Lemma astype_float32_finite (a : ndarray) :
  finite_samples a ->
  Forall (fun x => Float32.valid x = true /\ Float32.is_finite x = true)
         (astype_float32 a).
Proof.
  destruct a as [ xs | xs ]; cbn [finite_samples astype_float32];
    [ | auto ].
  induction 1; cbn [map]; constructor; auto using of_Z_int16_finite.
Qed.

Lemma quantize_zero (s : bool) : quantize (S754_zero s) = 0.
Proof. destruct s; reflexivity. Qed.

(** After peak normalisation of finite samples, every sample quantises
    into [[- int16_max, int16_max]]. *)
Lemma peak_normalize_quantize_range (a : ndarray) (audio_float : list spec_float) :
  finite_samples a ->
  peak_normalize a = Ok audio_float ->
  Forall (fun x => - int16_max <= quantize x <= int16_max) audio_float.
Proof.
  intros Hfin%astype_float32_finite. unfold peak_normalize.
  destruct (astype_float32 a) as [ | x0 xs ] eqn:Hfs; [ discriminate | ].
  rewrite <- Hfs in *. rewrite Hfs at 1. cbn [map np_max bind].
  set (peak := fold_left Float32.maximum (map Float32.abs xs)
                         (Float32.abs x0)).
  rewrite Hfs in Hfin.
  assert (Hmags : Forall magnitude (map Float32.abs (x0 :: xs))).
  { apply List.Forall_map. eapply Forall_impl; [ exact Hfin | ].
    intros x [Hv Hf]. apply magnitude_abs; assumption. }
  cbn [map] in Hmags. apply Forall_cons_1 in Hmags as [Hm0 Hmxs].
  destruct (fold_maximum_spec _ _ Hm0 Hmxs) as (Hin & Hle0 & Hlexs).
  fold peak in Hin, Hle0, Hlexs.
  assert (Hall : Forall (fun x => mag_le (Float32.abs x) peak) (x0 :: xs)).
  { constructor; [ assumption | ].
    apply List.Forall_map in Hlexs. exact Hlexs. }
  assert (Hpeak : magnitude peak).
  { assert (Hm : Forall magnitude (Float32.abs x0 :: map Float32.abs xs))
      by (constructor; assumption).
    rewrite List.Forall_forall in Hm. apply Hm, Hin. }
  rewrite <- Hfs in Hall, Hfin.
  clearbody peak. clear Hin Hle0 Hlexs Hm0 Hmxs Hfs.
  intros [= <-].
  destruct peak as [ [ | ] | | | [ | ] mp ep ]; cbn in Hpeak;
    try contradiction.
  - (* the peak is zero: every sample is a zero, nothing is divided *)
    change (Float32.gtb (S754_zero false) Float32.zero) with false.
    eapply Forall_impl; [ exact Hall | ].
    intros x Hx. destruct x; cbn in Hx; try contradiction.
    rewrite quantize_zero. unfold int16_max. lia.
  - change (Float32.gtb (S754_finite false mp ep) Float32.zero) with true.
    apply List.Forall_map.
    rewrite List.Forall_forall in Hall, Hfin |- *.
    intros x Hx. destruct (Hfin x Hx) as [Hv Hf].
    apply quantize_div_bound; try assumption.
    apply mag_le_SFleb; [ apply magnitude_abs; assumption | exact Hpeak | ].
    apply Hall, Hx.
Qed.

(** ** [normalize] *)

Lemma quantized_chunk_empty (self : AudioNormalizer) (a : ndarray)
    (last : bool) :
  ndarray_len a = 0%nat ->
  quantized_chunk self a last = Raise np_max_empty_error.
Proof.
  intros H. unfold quantized_chunk. rewrite (peak_normalize_empty a H).
  reflexivity.
Qed.

Lemma quantized_chunk_nonempty (self : AudioNormalizer) (a : ndarray)
    (last : bool) :
  ndarray_len a <> 0%nat ->
  exists audio_float,
    peak_normalize a = Ok audio_float /\
    length audio_float = ndarray_len a /\
    quantized_chunk self a last
      = Ok (List.map quantize (trim_chunk_end self audio_float last)).
Proof.
  intros H. destruct (peak_normalize_nonempty a H) as (fl & Hfl & Hlen).
  exists fl. repeat split; try assumption.
  unfold quantized_chunk. rewrite Hfl. reflexivity.
Qed.

Lemma normalize_empty (self : AudioNormalizer) (a : ndarray) (last : bool) :
  ndarray_len a = 0%nat ->
  normalize self a last = Raise np_max_empty_error.
Proof.
  intros H. unfold normalize. rewrite (quantized_chunk_empty self a last H).
  reflexivity.
Qed.

Lemma normalize_of_quantized (self : AudioNormalizer) (a : ndarray)
    (last : bool) (audio_int : list Z) :
  quantized_chunk self a last = Ok audio_int ->
  normalize self a last =
    Ok (py_slice audio_int
          (fst (find_first_last_non_silent self audio_int (-45)))
          (snd (find_first_last_non_silent self audio_int (-45)))).
Proof.
  intros H. unfold normalize. rewrite H. cbn [bind].
  destruct (find_first_last_non_silent self audio_int (-45)). reflexivity.
Qed.

(** The constructor never produces a negative padding. *)
Lemma AudioNormalizer_init_pads (settings : Settings) :
  samples_to_pad_start (AudioNormalizer_init settings) = 1200 /\
  0 <= samples_to_pad_end (AudioNormalizer_init settings).
Proof. cbn. split; [ reflexivity | lia ]. Qed.

(** What [normalize] does on finite samples: it raises on the zero-length
    chunk only, and what it returns is no longer than the chunk and within
    [[- int16_max, int16_max]]. *)
Lemma normalize_cases (self : AudioNormalizer) (audio_data : ndarray)
    (is_last_chunk : bool) :
  finite_samples audio_data ->
  match normalize self audio_data is_last_chunk with
  | Ok out =>
      (length out <= ndarray_len audio_data)%nat /\
      Forall (fun sample => - int16_max <= sample <= int16_max) out
  | Raise _ => ndarray_len audio_data = 0%nat
  end.
Proof.
  intros Hfin.
  destruct (Nat.eq_dec (ndarray_len audio_data) 0%nat) as [Hz | Hnz].
  - rewrite (normalize_empty self _ _ Hz). exact Hz.
  - destruct (quantized_chunk_nonempty self audio_data is_last_chunk Hnz)
      as (fl & Hfl & Hlen & Hq).
    rewrite (normalize_of_quantized _ _ _ _ Hq).
    split.
    + etransitivity; [ apply py_slice_length_le | ].
      rewrite length_map, <- Hlen. apply trim_chunk_end_length_le.
    + apply py_slice_Forall, List.Forall_map, trim_chunk_end_Forall.
      exact (peak_normalize_quantize_range _ _ Hfin Hfl).
Qed.


(** With a trim length of zero, the end trim of a non-final chunk keeps
    nothing: [audio_float[:-0]] is [audio_float[:0]]. *)
Lemma trim_chunk_end_zero {A} (self : AudioNormalizer) (audio_float : list A) :
  samples_to_trim self = 0 -> audio_float <> [] ->
  trim_chunk_end self audio_float false = [].
Proof.
  intros Hz Hne. unfold trim_chunk_end. rewrite Hz. cbn [negb andb].
  destruct audio_float as [ | x xs ]; [ contradiction | ].
  replace (0 <? Z.of_nat (length (x :: xs))) with true
    by (symmetry; apply Z.ltb_lt; cbn [length]; lia).
  apply py_slice_minus_zero.
Qed.

(** ** [convert_audio] *)





Lemma format_overrides_caller_keys
    (format_settings : option (gmap string (gmap string setting_value)))
    (fmt : string) :
  format_overrides format_settings fmt = caller_keys format_settings fmt.
Proof.
  destruct format_settings as [ fs | ]; [ | reflexivity ].
  unfold format_overrides, caller_keys. case_bool_decide as Hfs; [ | reflexivity ].
  subst fs. rewrite lookup_empty. reflexivity.
Qed.



(** * The specification's statements, checked against the code *)

(** C1.  The code at the failing input: 2000 samples of value -32767
    followed by one sample of value 32767.  The comparison is made on the
    signed sample, so the negative samples count as silent, the first
    index found is 2000 and the returned start is 2000 - 1200 = 800; with
    absolute values the first index is 0 and the returned start is 0. *)
Theorem negative_samples_treated_as_silent :
  let self := AudioNormalizer_init (mk_settings 250 410) in
  let audio_data := repeat (-32767) 2000 ++ [32767] in
  exceeds_threshold (-32767) (-45) = false /\
  exceeds_threshold (Z.abs (-32767)) (-45) = true /\
  find_first_last_non_silent self audio_data (-45) = (800, 2001) /\
  spec_find_first_last_non_silent self audio_data (-45) = (0, 2001).
Proof. cbv zeta. repeat split; vm_compute; reflexivity. Qed.

(** C2 (amended).  For every input whose normalisation step succeeds,
    [convert_audio] with a format outside [{wav, mp3, opus, flac, pcm}]
    (["aac"] included) fails with a [ValueError] whose message carries the
    requested format and the list of supported formats; the error raised at
    the rejection is caught by the [except] clause of [convert_audio] and
    re-raised with the prefix ["Failed to convert audio to {format}: "]. *)
Theorem unsupported_format_rejected (settings : Settings)
    (sf_write : sf_call -> result (list byte))
    (wavfile_write : Z -> ndarray -> result (list byte))
    (audio_data : ndarray) (sample_rate : Z) (output_format : string)
    (is_first_chunk is_last_chunk : bool)
    (normalizer : option AudioNormalizer)
    (format_settings : option (gmap string (gmap string setting_value)))
    (stream : bool) (normalized_audio : ndarray) :
  output_format ∉ SUPPORTED_FORMATS ->
  normalized_audio_of settings audio_data is_last_chunk normalizer stream
    = Ok normalized_audio ->
  convert_audio_body settings sf_write wavfile_write audio_data sample_rate
    output_format is_first_chunk is_last_chunk normalizer format_settings
    stream
    = Raise (ValueError ("Format " +:+ output_format +:+ " not supported. "
                           +:+ "Supported formats are: wav, mp3, opus, flac, pcm."))
  /\
  convert_audio settings sf_write wavfile_write audio_data sample_rate
    output_format is_first_chunk is_last_chunk normalizer format_settings
    stream
    = Raise (ValueError
        ("Failed to convert audio to " +:+ output_format +:+ ": "
           +:+ "Format " +:+ output_format +:+ " not supported. "
           +:+ "Supported formats are: wav, mp3, opus, flac, pcm.")).
Proof.
  intros Hfmt Hnorm. unfold SUPPORTED_FORMATS in Hfmt.
  repeat (apply not_elem_of_cons in Hfmt as [?%String.eqb_neq Hfmt]).
  assert (Hbody :
    convert_audio_body settings sf_write wavfile_write audio_data sample_rate
      output_format is_first_chunk is_last_chunk normalizer format_settings
      stream
    = Raise (ValueError (unsupported_format_message output_format))).
  { unfold convert_audio_body. rewrite Hnorm. cbn [bind].
    repeat match goal with H : String.eqb _ _ = false |- _ =>
      rewrite H; clear H end.
    destruct (String.eqb_spec output_format "aac") as [-> | _];
      reflexivity. }
  split; [ exact Hbody | ].
  unfold convert_audio. rewrite Hbody. reflexivity.
Qed.

Lemma unsupported_format_rejected_witness :
  let settings := mk_settings 250 410 in
  ("xyz" ∉ SUPPORTED_FORMATS) /\
  normalized_audio_of settings (Float32Array [one32]) true None true
    = Ok (Int16Array [32767]) /\
  convert_audio settings sf_write_nothing wavfile_write_nothing
    (Float32Array [one32]) 24000 "xyz" true true None None true
  = Raise (ValueError
      "Failed to convert audio to xyz: Format xyz not supported. Supported formats are: wav, mp3, opus, flac, pcm.").
Proof.
  cbv zeta.
  assert (Hfmt : "xyz" ∉ SUPPORTED_FORMATS).
  { unfold SUPPORTED_FORMATS.
    repeat (apply not_elem_of_cons; split; [ discriminate | ]).
    apply not_elem_of_nil. }
  split; [ exact Hfmt | ]. split; [ reflexivity | ].
  exact (proj2 (unsupported_format_rejected (mk_settings 250 410)
                  sf_write_nothing wavfile_write_nothing
                  (Float32Array [one32]) 24000 "xyz" true true None None true
                  (Int16Array [32767]) Hfmt eq_refl)).
Defined.

(** C2, as stated, fails: the error that reaches the caller of
    [convert_audio] for ["aac"] (and for any unrecognised tag) is not the
    error raised at the rejection; it is the re-wrapped one.  On a
    zero-length chunk in streaming mode the caller does not even see the
    rejection: [normalize] fails first. *)
Lemma unsupported_format_error_rewrapped :
  let settings := mk_settings 250 410 in
  let rejection format :=
    ValueError ("Format " +:+ format +:+ " not supported. "
                  +:+ "Supported formats are: wav, mp3, opus, flac, pcm.") in
  convert_audio settings sf_write_nothing wavfile_write_nothing
    (Float32Array [one32]) 24000 "aac" true true None None true
  = Raise (ValueError
      "Failed to convert audio to aac: Format aac not supported. Supported formats are: wav, mp3, opus, flac, pcm.") /\
  convert_audio settings sf_write_nothing wavfile_write_nothing
    (Float32Array [one32]) 24000 "aac" true true None None true
  <> Raise (rejection "aac") /\
  convert_audio settings sf_write_nothing wavfile_write_nothing
    (Float32Array [one32]) 24000 "xyz" true true None None true
  <> Raise (rejection "xyz") /\
  convert_audio settings sf_write_nothing wavfile_write_nothing
    (Float32Array []) 24000 "aac" true true None None true
  = Raise (ValueError
      "Failed to convert audio to aac: zero-size array to reduction operation maximum which has no identity").
Proof.
  cbv zeta.
  assert (Haac :
    convert_audio (mk_settings 250 410) sf_write_nothing
      wavfile_write_nothing (Float32Array [one32]) 24000 "aac" true true
      None None true
    = Raise (ValueError
        "Failed to convert audio to aac: Format aac not supported. Supported formats are: wav, mp3, opus, flac, pcm."))
    by (vm_compute; reflexivity).
  assert (Hxyz :
    convert_audio (mk_settings 250 410) sf_write_nothing
      wavfile_write_nothing (Float32Array [one32]) 24000 "xyz" true true
      None None true
    = Raise (ValueError
        "Failed to convert audio to xyz: Format xyz not supported. Supported formats are: wav, mp3, opus, flac, pcm."))
    by (vm_compute; reflexivity).
  split; [ exact Haac | ].
  split; [ rewrite Haac; cbn [String.append]; intros [=] | ].
  split; [ rewrite Hxyz; cbn [String.append]; intros [=] | ].
  vm_compute; reflexivity.
Qed.




(** C4.  For every [int16] buffer (of any length, silent or not), every
    threshold and every normalizer whose two paddings are non-negative,
    the pair [(start, end)] returned by [find_first_last_non_silent]
    satisfies [0 <= start <= end <= len(buffer)]; the slice taken with it
    is therefore never longer than the buffer. *)
Theorem silence_indices_within_buffer (self : AudioNormalizer)
    (audio_data : list Z) (silence_threshold_db : Z) :
  0 <= samples_to_pad_start self ->
  0 <= samples_to_pad_end self ->
  let '(start_index, end_index) :=
    find_first_last_non_silent self audio_data silence_threshold_db in
  0 <= start_index <= end_index /\
  end_index <= Z.of_nat (length audio_data) /\
  Z.of_nat (length (py_slice audio_data start_index end_index))
    = end_index - start_index.
Proof.
  intros Hps Hpe.
  destruct (find_first_last_non_silent_cases self audio_data
              silence_threshold_db)
    as [ [_ ->] | (first & last & Hfl & _ & _ & -> & _) ].
  - repeat split; try lia. rewrite py_slice_full. lia.
  - assert (H : 0 <= Z.max (Z.of_nat first - samples_to_pad_start self) 0
                <= Z.min (Z.of_nat last + samples_to_pad_end self)
                         (Z.of_nat (length audio_data))
                /\ Z.min (Z.of_nat last + samples_to_pad_end self)
                         (Z.of_nat (length audio_data))
                   <= Z.of_nat (length audio_data)) by lia.
    destruct H as [H1 H2]. repeat split; try lia.
    apply py_slice_length; lia.
Qed.

Lemma silence_indices_within_buffer_witness :
  let self := AudioNormalizer_init (mk_settings 250 410) in
  let audio_data := [0; 200; -300; 0] in
  0 <= samples_to_pad_start self /\
  0 <= samples_to_pad_end self /\
  let '(start_index, end_index) :=
    find_first_last_non_silent self audio_data (-45) in
  0 <= start_index <= end_index /\
  end_index <= Z.of_nat (length audio_data) /\
  Z.of_nat (length (py_slice audio_data start_index end_index))
    = end_index - start_index.
Proof.
  cbv zeta.
  split; [ vm_compute; discriminate | ].
  split; [ vm_compute; discriminate | ].
  apply (silence_indices_within_buffer
           (AudioNormalizer_init (mk_settings 250 410))
           [0; 200; -300; 0] (-45));
    vm_compute; discriminate.
Defined.

(** C5.  The code at the failing input: with [gap_trim_ms = 0] the trim
    length is zero; a non-final chunk of two samples is longer than that,
    and the end trim drops both samples instead of none.  The final-chunk
    path keeps them. *)
Theorem zero_trim_drops_whole_chunk :
  let self := AudioNormalizer_init (mk_settings 0 410) in
  samples_to_trim self = 0 /\
  trim_chunk_end self [one32; one32] false = [] /\
  normalize self (Float32Array [one32; one32]) false = Ok [] /\
  normalize self (Float32Array [one32; one32]) true = Ok [32767; 32767].
Proof. cbv zeta. repeat split; reflexivity. Qed.

(** C6.  For every chunk of finite samples, every normalizer and every
    [is_last_chunk] flag, the buffer returned by [normalize] is no longer
    than the chunk and every sample in it has absolute value at most
    32767.  [normalize] returns such a buffer for every chunk but the
    zero-length one, on which [np.max] raises. *)
Theorem normalize_output_bounded (self : AudioNormalizer)
    (audio_data : ndarray) (is_last_chunk : bool) :
  finite_samples audio_data ->
  match normalize self audio_data is_last_chunk with
  | Ok out =>
      (length out <= ndarray_len audio_data)%nat /\
      Forall (fun sample => Z.abs sample <= 32767) out
  | Raise _ => ndarray_len audio_data = 0%nat
  end.
Proof.
  intros Hfin.
  pose proof (normalize_cases self audio_data is_last_chunk Hfin) as H.
  destruct (normalize self audio_data is_last_chunk) as [ out | e ];
    [ | exact H ].
  destruct H as [Hlen Hrange]. split; [ exact Hlen | ].
  eapply Forall_impl; [ exact Hrange | ].
  unfold int16_max. intros x Hx. cbv beta in Hx. lia.
Qed.

Lemma normalize_output_bounded_witness :
  let self := AudioNormalizer_init (mk_settings 250 410) in
  let audio_data := Int16Array [-32768; 100; 30; 5] in
  finite_samples audio_data /\
  match normalize self audio_data true with
  | Ok out =>
      (length out <= ndarray_len audio_data)%nat /\
      Forall (fun sample => Z.abs sample <= 32767) out
  | Raise _ => ndarray_len audio_data = 0%nat
  end.
Proof.
  cbv zeta.
  assert (Hfin : finite_samples (Int16Array [-32768; 100; 30; 5]))
    by (cbn; repeat constructor; discriminate).
  split; [ exact Hfin | ].
  apply (normalize_output_bounded
           (AudioNormalizer_init (mk_settings 250 410))
           (Int16Array [-32768; 100; 30; 5]) true Hfin).
Defined.

(** C7 (amended).  For every buffer in which no sample exceeds the silence
    threshold, the locator returns [(0, len(buffer))] (so [(0, 0)] for an
    empty buffer).  For every chunk of at least one sample, [normalize]
    computes the post-trim quantised buffer without raising, and when no
    sample of that buffer exceeds the threshold it returns the whole of
    it.  On a zero-length chunk [normalize] raises the [ValueError] of
    [np.max]. *)
Theorem silent_chunk_returned_whole (self : AudioNormalizer)
    (buffer : list Z) (silence_threshold_db : Z)
    (audio_data : ndarray) (is_last_chunk : bool) :
  Forall (fun s => exceeds_threshold s silence_threshold_db = false) buffer ->
  find_first_last_non_silent self buffer silence_threshold_db
    = (0, Z.of_nat (length buffer)) /\
  match quantized_chunk self audio_data is_last_chunk with
  | Ok audio_int =>
      ndarray_len audio_data <> 0%nat /\
      (Forall (fun s => exceeds_threshold s (-45) = false) audio_int ->
       normalize self audio_data is_last_chunk = Ok audio_int)
  | Raise e =>
      ndarray_len audio_data = 0%nat /\
      e = np_max_empty_error /\
      normalize self audio_data is_last_chunk = Raise e
  end.
Proof.
  intros Hsilent.
  assert (Hloc : forall l db,
             Forall (fun s => exceeds_threshold s db = false) l ->
             find_first_last_non_silent self l db
               = (0, Z.of_nat (length l))).
  { intros l db Hl.
    destruct (find_first_last_non_silent_cases self l db)
      as [ [_ H] | (first & _ & _ & (s & Hlook & Hs) & _ & _) ];
      [ exact H | ].
    pose proof (Forall_lookup_1 _ _ _ _ Hl Hlook) as Hq. cbv beta in Hq.
    congruence. }
  split; [ apply Hloc, Hsilent | ].
  destruct (Nat.eq_dec (ndarray_len audio_data) 0%nat) as [Hz | Hnz].
  - rewrite (quantized_chunk_empty self _ _ Hz).
    repeat split; [ exact Hz | apply normalize_empty, Hz ].
  - destruct (quantized_chunk_nonempty self audio_data is_last_chunk Hnz)
      as (fl & _ & _ & Hq).
    rewrite Hq. split; [ exact Hnz | ].
    intros Hquiet. rewrite (normalize_of_quantized _ _ _ _ Hq).
    rewrite (Hloc _ _ Hquiet). cbn [fst snd]. rewrite py_slice_full.
    reflexivity.
Qed.

Lemma silent_chunk_returned_whole_witness :
  let self := AudioNormalizer_init (mk_settings 250 410) in
  let buffer := [0; -200; 184] in
  let audio_data := Float32Array [Float32.zero; Float32.zero] in
  Forall (fun s => exceeds_threshold s (-45) = false) buffer /\
  find_first_last_non_silent self buffer (-45)
    = (0, Z.of_nat (length buffer)) /\
  match quantized_chunk self audio_data true with
  | Ok audio_int =>
      ndarray_len audio_data <> 0%nat /\
      (Forall (fun s => exceeds_threshold s (-45) = false) audio_int ->
       normalize self audio_data true = Ok audio_int)
  | Raise e =>
      ndarray_len audio_data = 0%nat /\
      e = np_max_empty_error /\
      normalize self audio_data true = Raise e
  end.
Proof.
  cbv zeta.
  assert (H1 : Forall (fun s => exceeds_threshold s (-45) = false)
                      [0; -200; 184])
    by (repeat constructor).
  split; [ exact H1 | ].
  exact (silent_chunk_returned_whole
           (AudioNormalizer_init (mk_settings 250 410))
           [0; -200; 184] (-45)
           (Float32Array [Float32.zero; Float32.zero]) true H1).
Defined.

(** C7, as stated, fails on the zero-length chunk: the locator does return
    [(0, 0)] on the empty buffer, but [normalize] never reaches it, because
    [np.max] raises on a zero-size array. *)
Lemma normalize_empty_chunk_raises :
  let self := AudioNormalizer_init (mk_settings 250 410) in
  find_first_last_non_silent self [] (-45) = (0, 0) /\
  normalize self (Float32Array []) false = Raise np_max_empty_error /\
  normalize self (Float32Array []) true = Raise np_max_empty_error /\
  normalize self (Int16Array []) true = Raise np_max_empty_error.
Proof. cbv zeta. repeat split; reflexivity. Qed.




(** C9.  For every format in [{mp3, opus, flac}] and every overrides
    mapping, each chunk that reaches the encoder is written by one
    [sf.write] call whose keyword settings are the default table of that
    format with the caller's keys for that same format overlaid: a caller
    key replaces the default, every other default key is kept.  Override
    entries of other formats do not change the call, and without overrides
    the settings are exactly the defaults. *)
Theorem encoder_settings_are_defaults_overlaid (settings : Settings)
    (sf_write : sf_call -> result (list byte))
    (wavfile_write : Z -> ndarray -> result (list byte))
    (audio_data : ndarray) (sample_rate : Z) (output_format : string)
    (is_first_chunk is_last_chunk : bool)
    (normalizer : option AudioNormalizer)
    (format_settings : option (gmap string (gmap string setting_value)))
    (stream : bool) (normalized_audio : ndarray) :
  output_format ∈ ["mp3"; "opus"; "flac"]%string ->
  normalized_audio_of settings audio_data is_last_chunk normalizer stream
    = Ok normalized_audio ->
  exists call,
    convert_audio_body settings sf_write wavfile_write audio_data
      sample_rate output_format is_first_chunk is_last_chunk normalizer
      format_settings stream = sf_write call /\
    sf_data call = normalized_audio /\
    sf_samplerate call = sample_rate /\
    sf_kwargs call
      = caller_keys format_settings output_format
        ∪ DEFAULT_SETTINGS !!! output_format /\
    (forall key,
       sf_kwargs call !! key =
         match caller_keys format_settings output_format !! key with
         | Some v => Some v
         | None => (DEFAULT_SETTINGS !!! output_format) !! key
         end) /\
    (caller_keys format_settings output_format = ∅ ->
     sf_kwargs call = DEFAULT_SETTINGS !!! output_format) /\
    (forall format_settings',
       caller_keys format_settings' output_format
         = caller_keys format_settings output_format ->
       convert_audio_body settings sf_write wavfile_write audio_data
         sample_rate output_format is_first_chunk is_last_chunk normalizer
         format_settings' stream = sf_write call).
Proof.
  intros Hfmt Hnorm.
  assert (Hbody : forall fs,
    convert_audio_body settings sf_write wavfile_write audio_data
      sample_rate output_format is_first_chunk is_last_chunk normalizer
      fs stream
    = sf_write
        (mk_sf_call normalized_audio sample_rate
           (if String.eqb output_format "mp3" then "MP3"
            else if String.eqb output_format "opus" then "OGG" else "FLAC")
           (if String.eqb output_format "mp3" then None
            else if String.eqb output_format "opus" then Some "OPUS"
                 else Some "PCM_16")
           (caller_keys fs output_format
              ∪ DEFAULT_SETTINGS !!! output_format))).
  { intros fs. unfold convert_audio_body. rewrite Hnorm. cbn [bind].
    unfold merge_settings. rewrite !format_overrides_caller_keys.
    repeat (apply elem_of_cons in Hfmt as [-> | Hfmt]);
      [ reflexivity | reflexivity | reflexivity | ].
    apply elem_of_nil in Hfmt. contradiction. }
  eexists. split; [ apply Hbody | ]. cbn [sf_data sf_samplerate sf_kwargs].
  split; [ reflexivity | ]. split; [ reflexivity | ].
  split; [ reflexivity | ]. split; [ | split ].
  - intros key. rewrite lookup_union.
    destruct (caller_keys format_settings output_format !! key),
      ((DEFAULT_SETTINGS !!! output_format) !! key); reflexivity.
  - intros ->. apply (left_id_L ∅ (∪)).
  - intros fs' Heq. rewrite Hbody, Heq. reflexivity.
Qed.

Lemma encoder_settings_are_defaults_overlaid_witness :
  let settings := mk_settings 250 410 in
  let overrides : gmap string (gmap string setting_value) :=
    {[ "mp3" := {[ "bitrate_mode" := SettingStr "VARIABLE" ]};
       "flac" := {[ "compression_level" := SettingFloat (S754_zero true) ]} ]} in
  ("mp3" ∈ ["mp3"; "opus"; "flac"]%string) /\
  normalized_audio_of settings (Float32Array [one32]) true None true
    = Ok (Int16Array [32767]) /\
  exists call,
    convert_audio_body settings sf_write_failing wavfile_write_nothing
      (Float32Array [one32]) 24000 "mp3" true true None (Some overrides)
      true = sf_write_failing call /\
    sf_kwargs call !! "bitrate_mode" = Some (SettingStr "VARIABLE") /\
    sf_kwargs call !! "compression_level"
      = Some (SettingFloat (S754_zero false)).
Proof.
  cbv zeta.
  assert (Hfmt : "mp3" ∈ ["mp3"; "opus"; "flac"]%string)
    by (apply elem_of_cons; left; reflexivity).
  assert (Hnorm :
    normalized_audio_of (mk_settings 250 410) (Float32Array [one32]) true
      None true = Ok (Int16Array [32767])) by reflexivity.
  split; [ exact Hfmt | ]. split; [ exact Hnorm | ].
  destruct (encoder_settings_are_defaults_overlaid (mk_settings 250 410)
              sf_write_failing wavfile_write_nothing (Float32Array [one32])
              24000 "mp3" true true None
              (Some {[ "mp3" := {[ "bitrate_mode" := SettingStr "VARIABLE" ]};
                       "flac" := {[ "compression_level" :=
                                      SettingFloat (S754_zero true) ]} ]})
              true (Int16Array [32767]) Hfmt Hnorm)
    as (call & Hcall & _ & _ & _ & Hkeys & _).
  exists call. split; [ exact Hcall | ].
  rewrite !Hkeys. split; vm_compute; reflexivity.
Defined.

(** C10.  Every exception that escapes [convert_audio] is the [ValueError]
    built by the [except] clause: its message is
    ["Failed to convert audio to {format}: "] followed by the message of
    the exception raised inside the [try] block (by [normalize], by an
    external writer, or by the rejection of the format).  In particular
    the rejection's own [ValueError] never reaches the caller. *)
Theorem convert_audio_raises_wrapped (settings : Settings)
    (sf_write : sf_call -> result (list byte))
    (wavfile_write : Z -> ndarray -> result (list byte))
    (audio_data : ndarray) (sample_rate : Z) (output_format : string)
    (is_first_chunk is_last_chunk : bool)
    (normalizer : option AudioNormalizer)
    (format_settings : option (gmap string (gmap string setting_value)))
    (stream : bool) (e : exn) :
  convert_audio settings sf_write wavfile_write audio_data sample_rate
    output_format is_first_chunk is_last_chunk normalizer format_settings
    stream = Raise e ->
  exists cause,
    convert_audio_body settings sf_write wavfile_write audio_data
      sample_rate output_format is_first_chunk is_last_chunk normalizer
      format_settings stream = Raise cause /\
    e = ValueError ("Failed to convert audio to " +:+ output_format
                      +:+ ": " +:+ exn_str cause) /\
    e <> ValueError (unsupported_format_message output_format).
Proof.
  unfold convert_audio, try_except.
  destruct (convert_audio_body _ _ _ _ _ _ _ _ _ _ _) as [ bytes | cause ];
    [ discriminate | ].
  intros [= <-]. exists cause. split; [ reflexivity | ].
  split; [ reflexivity | ].
  unfold ValueError, conversion_failure_message, unsupported_format_message.
  cbn [String.append]. intros [=].
Qed.

Lemma convert_audio_raises_wrapped_witness :
  let e := ValueError "Failed to convert audio to mp3: Error opening <_io.BytesIO object>" in
  convert_audio (mk_settings 250 410) sf_write_failing wavfile_write_nothing
    (Float32Array [one32]) 24000 "mp3" true true None None true = Raise e /\
  exists cause,
    convert_audio_body (mk_settings 250 410) sf_write_failing
      wavfile_write_nothing (Float32Array [one32]) 24000 "mp3" true true
      None None true = Raise cause /\
    e = ValueError ("Failed to convert audio to " +:+ "mp3"
                      +:+ ": " +:+ exn_str cause) /\
    e <> ValueError (unsupported_format_message "mp3").
Proof.
  cbv zeta.
  assert (H : convert_audio (mk_settings 250 410) sf_write_failing
                wavfile_write_nothing (Float32Array [one32]) 24000 "mp3"
                true true None None true
              = Raise (ValueError "Failed to convert audio to mp3: Error opening <_io.BytesIO object>"))
    by (vm_compute; reflexivity).
  split; [ exact H | ].
  exact (convert_audio_raises_wrapped (mk_settings 250 410) sf_write_failing
           wavfile_write_nothing (Float32Array [one32]) 24000 "mp3" true true
           None None true _ H).
Defined.

(** * Further properties of the code *)

(** ** The constructor *)

(** Shifting a mantissa by its exponent gives back the integer it
    stands for. *)
Lemma shiftl_value (c c1 e1 ex : Z) :
  ex <= 0 -> ex <= e1 -> c1 * 2 ^ (e1 - ex) = c * 2 ^ (- ex) ->
  Z.shiftl c1 e1 = c.
Proof.
  intros Hex Hle Hv.
  assert (Hp : 0 < 2 ^ (- ex)) by (apply Z.pow_pos_nonneg; lia).
  destruct (Z_le_gt_dec e1 0) as [ Hneg | Hpos ].
  - rewrite Z.shiftl_div_pow2 by assumption.
    replace (- ex) with (- e1 + (e1 - ex)) in Hv by lia.
    rewrite Z.pow_add_r in Hv by lia.
    assert (0 < 2 ^ (e1 - ex)) by (apply Z.pow_pos_nonneg; lia).
    assert (c1 = c * 2 ^ (- e1)) by nia.
    subst c1. apply Z.div_mul.
    assert (0 < 2 ^ (- e1)) by (apply Z.pow_pos_nonneg; lia). lia.
  - rewrite Z.shiftl_mul_pow2 by lia.
    replace (e1 - ex) with (e1 + - ex) in Hv by lia.
    rewrite Z.pow_add_r in Hv by lia. nia.
Qed.

(** Binary64 rounding of an integer of at most 53 significant bits (or
    of [2 ^ 53]) is exact. *)
Lemma binary_round_aux64_exact (sx : bool) (mx ex c : Z) :
  0 < c <= 2 ^ 53 -> ex <= 0 -> mx = c * 2 ^ (- ex) ->
  exists m e,
    binary_round_aux 53 1024 sx mx ex loc_Exact = S754_finite sx m e /\
    Z.shiftl (Z.pos m) e = c.
Proof.
  intros Hc Hex Hmx.
  assert (Hp : 0 < 2 ^ (- ex)) by (apply Z.pow_pos_nonneg; lia).
  assert (Hmpos : 0 < mx) by nia.
  destruct mx as [ | p | p ]; try lia.
  pose proof (digits2_pos_bounds p) as [Hlo Hhi].
  set (dg := Z.pos (digits2_pos p)) in *.
  assert (HD1 : 1 <= dg + ex).
  { assert (2 ^ (- ex) < 2 ^ dg) by nia.
    apply Z.pow_lt_mono_r_iff in H; lia. }
  assert (Hclo : 2 ^ (dg + ex - 1) <= c).
  { replace (dg - 1) with ((dg + ex - 1) + - ex) in Hlo by lia.
    rewrite Z.pow_add_r in Hlo by lia. nia. }
  assert (HD2 : dg + ex <= 54).
  { assert (2 ^ (dg + ex - 1) <= 2 ^ 53) by lia.
    apply Z.pow_le_mono_r_iff in H; lia. }
  set (k := Z.max (dg - 53) 0).
  assert (Hk : exists c1, Z.pos p = c1 * 2 ^ k /\ 0 < c1 < 2 ^ 53).
  { unfold k. destruct (Z_le_gt_dec dg 53) as [ Hsmall | Hbig ].
    - rewrite Z.max_r by lia. exists (Z.pos p). rewrite Z.pow_0_r.
      split; [ lia | ]. split; [ lia | ].
      assert (2 ^ dg <= 2 ^ 53) by (apply Z.pow_le_mono_r; lia). lia.
    - rewrite Z.max_l by lia.
      assert (Hkp : 0 < 2 ^ (dg - 53)) by (apply Z.pow_pos_nonneg; lia).
      assert (Hsplit : 2 ^ dg = 2 ^ 53 * 2 ^ (dg - 53)).
      { rewrite <- Z.pow_add_r by lia. f_equal. lia. }
      destruct (Z_le_gt_dec (dg + ex) 53) as [ HD | HD ].
      + exists (c * 2 ^ (- ex - (dg - 53))).
        assert (0 < 2 ^ (- ex - (dg - 53)))
          by (apply Z.pow_pos_nonneg; lia).
        assert (E : Z.pos p = c * 2 ^ (- ex - (dg - 53)) * 2 ^ (dg - 53)).
        { rewrite <- Z.mul_assoc, <- Z.pow_add_r by lia.
          rewrite Hmx. do 2 f_equal. lia. }
        split; [ exact E | ]. split; [ nia | ].
        rewrite E, Hsplit in Hhi. nia.
      + assert (dg + ex = 54) by lia.
        assert (Hc53 : c = 2 ^ 53).
        { replace (dg + ex - 1) with 53 in Hclo by lia. lia. }
        exists (2 ^ 52).
        split; [ | split; [ reflexivity | reflexivity ] ].
        rewrite Hmx, Hc53, <- !Z.pow_add_r by lia. f_equal. lia. }
  destruct Hk as (c1 & Hpc & Hc1).
  assert (Hfexp : fexp 53 1024 (dg + ex) - ex = dg - 53).
  { unfold fexp, emin. lia. }
  unfold binary_round_aux, shr_fexp.
  change (Zdigits2 (Z.pos p)) with dg. rewrite Hfexp.
  change (shr_record_of_loc (Z.pos p) loc_Exact)
    with (exact_record (Z.pos p)).
  pose proof (shr_exact c1 ex (dg - 53) ltac:(lia)) as Hfst.
  fold k in Hfst. rewrite <- Hpc in Hfst.
  destruct (shr_spec (exact_record (Z.pos p)) ex (dg - 53)) as [Hsnd _];
    [ cbn; lia | ]. fold k in Hsnd.
  destruct (shr (exact_record (Z.pos p)) ex (dg - 53)) as [mrs1 e1].
  cbn [fst snd] in Hfst, Hsnd. subst mrs1 e1.
  cbn [shr_m exact_record loc_of_shr_record round_nearest_even
       shr_record_of_loc].
  change {| shr_m := c1; shr_r := false; shr_s := false |}
    with (exact_record c1).
  assert (Hd1 : Zdigits2 c1 <= 53) by (apply Zdigits2_le; lia).
  assert (Hn2 : fexp 53 1024 (Zdigits2 c1 + (ex + k)) - (ex + k) <= 0).
  { unfold fexp, emin, k. lia. }
  assert (Hshr2 : shr (exact_record c1) (ex + k)
                    (fexp 53 1024 (Zdigits2 c1 + (ex + k)) - (ex + k))
                  = (exact_record c1, ex + k)).
  { unfold shr.
    destruct (fexp 53 1024 (Zdigits2 c1 + (ex + k)) - (ex + k));
      [ reflexivity | lia | reflexivity ]. }
  rewrite Hshr2. cbn [shr_m exact_record].
  destruct c1 as [ | m | m ]; try lia.
  exists m, (ex + k).
  replace (ex + k <=? 1024 - 53) with true
    by (symmetry; apply Z.leb_le; unfold k; lia).
  split; [ reflexivity | ].
  apply (shiftl_value c (Z.pos m) (ex + k) ex); [ lia | unfold k; lia | ].
  replace (ex + k - ex) with k by lia. lia.
Qed.

(** True division of a multiple of 1000 by 1000 returns the quotient
    itself while binary64 represents it. *)
Lemma int_true_divide_exact (c : Z) :
  Z.abs c <= 2 ^ 53 ->
  exists q, int_true_divide (c * 1000) 1000 = Ok q /\ Float32.trunc q = c.
Proof.
  intros Hc. unfold int_true_divide. change (1000 =? 0) with false.
  cbv iota.
  assert (Hgen : forall (s : bool) (p : positive) (c : Z),
            0 < c <= 2 ^ 53 -> Z.pos p = c * 1000 ->
            exists m e,
              SFdiv 53 1024 (S754_finite s p 0) (int_operand 1000)
                = S754_finite s m e /\
              Z.shiftl (Z.pos m) e = c).
  { clear c Hc. intros s p c Hc Hp.
    cbn [int_operand SFdiv]. unfold SFdiv_core_binary.
    pose proof (digits2_pos_bounds p) as [Hlo Hhi].
    change (Zdigits2 (Z.pos p)) with (Z.pos (digits2_pos p)).
    set (dg := Z.pos (digits2_pos p)) in *.
    change (Zdigits2 1000) with 10.
    assert (Hdg1 : 10 <= dg).
    { assert (2 ^ 9 < 2 ^ dg) by (change (2 ^ 9) with 512; lia).
      apply Z.pow_lt_mono_r_iff in H; lia. }
    assert (Hdg2 : dg <= 63).
    { assert (2 ^ (dg - 1) < 2 ^ 63).
      { assert (1000 * 2 ^ 53 < 2 ^ 63) by (vm_compute; reflexivity). lia. }
      apply Z.pow_lt_mono_r_iff in H; lia. }
    replace (Z.min (fexp 53 1024 (dg + 0 - (10 + 0))) (0 - 0))
      with (dg - 63) by (unfold fexp, emin; lia).
    replace (0 - 0 - (dg - 63)) with (63 - dg) by lia.
    set (m' := match 63 - dg with Z.pos _ => _ | Z0 => _ | Z.neg _ => _ end).
    assert (Hm' : m' = c * 2 ^ (63 - dg) * 1000).
    { unfold m'. destruct (63 - dg) as [ | j | j ] eqn:Hsh.
      - rewrite Z.pow_0_r. lia.
      - rewrite Z.shiftl_mul_pow2 by lia. lia.
      - lia. }
    clearbody m'.
    pose proof (Z_div_mod m' 1000 ltac:(lia)) as Hdiv.
    destruct (Z.div_eucl m' 1000) as [q r].
    destruct Hdiv as [Hqr Hr].
    assert (Hq : q = c * 2 ^ (63 - dg)) by lia.
    assert (Hr0 : r = 0) by lia. subst r.
    rewrite new_location_exact. rewrite xorb_false_r.
    apply binary_round_aux64_exact; [ assumption | lia | ].
    rewrite Hq. do 2 f_equal. lia. }
  destruct c as [ | p | p ].
  - exists (S754_zero false). split; reflexivity.
  - destruct (Hgen false (p * 1000)%positive (Z.pos p)) as (m & e & Hd & Hv);
      [ lia | lia | ].
    change (Z.pos p * 1000) with (Z.pos (p * 1000)).
    cbn [int_operand] in Hd |- *. rewrite Hd.
    exists (S754_finite false m e). split; [ reflexivity | ].
    cbn [Float32.trunc cond_Zopp]. exact Hv.
  - destruct (Hgen true (p * 1000)%positive (Z.pos p)) as (m & e & Hd & Hv);
      [ lia | lia | ].
    change (Z.neg p * 1000) with (Z.neg (p * 1000)).
    cbn [int_operand] in Hd |- *. rewrite Hd.
    exists (S754_finite true m e). split; [ reflexivity | ].
    cbn [Float32.trunc cond_Zopp]. rewrite Hv. reflexivity.
Qed.

(** At 24000 samples per second Python's [int(ms * sample_rate / 1000)]
    is [24 * ms] on that range. *)
Lemma ms_to_samples_binary64_exact (ms : Z) :
  Z.abs (24 * ms) <= 2 ^ 53 ->
  ms_to_samples_binary64 ms 24000 = Ok (24 * ms).
Proof.
  intros H. unfold ms_to_samples_binary64.
  replace (ms * 24000) with (24 * ms * 1000) by lia.
  destruct (int_true_divide_exact (24 * ms) H) as (q & -> & Hq).
  cbn [bind]. rewrite Hq. reflexivity.
Qed.

(** Past that range the division rounds, or overflows. *)
Lemma ms_to_samples_binary64_rounds :
  ms_to_samples_binary64 (10 ^ 17 + 1) 24000 = Ok 2400000000000000000 /\
  ms_to_samples (10 ^ 17 + 1) 24000 = 2400000000000000024 /\
  ms_to_samples_binary64 (10 ^ 400) 24000
    = Raise (mk_exn "OverflowError"
                    "integer division result too large for a float").
Proof. repeat split; vm_compute; reflexivity. Qed.

(** X1.  The constructor's sample counts, for every configuration whose
    two durations give sample counts that binary64 represents
    ([|24 * ms| <= 2 ^ 53]): Python's [int(ms * 24000 / 1000)] is exactly
    [24 * ms], so there are 24 samples per millisecond of gap trim (also
    for a negative value), a start padding of 1200 samples, and an end
    padding that tops the start padding up to the configured dynamic
    padding, never negative. *)
Theorem AudioNormalizer_init_samples (settings : Settings) :
  exact_sample_count (gap_trim_ms settings) ->
  exact_sample_count (dynamic_gap_trim_padding_ms settings) ->
  let self := AudioNormalizer_init settings in
  ms_to_samples_binary64 (gap_trim_ms settings) 24000
    = Ok (samples_to_trim self) /\
  ms_to_samples_binary64 50 24000 = Ok (samples_to_pad_start self) /\
  ms_to_samples_binary64 (dynamic_gap_trim_padding_ms settings) 24000
    = Ok (24 * dynamic_gap_trim_padding_ms settings) /\
  sample_rate self = 24000 /\
  samples_to_trim self = 24 * gap_trim_ms settings /\
  samples_to_pad_start self = 1200 /\
  samples_to_pad_end self
    = Z.max (24 * dynamic_gap_trim_padding_ms settings - 1200) 0 /\
  samples_to_pad_start self + samples_to_pad_end self
    = Z.max (24 * dynamic_gap_trim_padding_ms settings) 1200 /\
  (samples_to_pad_end self = 0 <->
   dynamic_gap_trim_padding_ms settings <= 50).
Proof.
  intros Hgap Hdyn.
  assert (Hq : forall ms, ms_to_samples ms 24000 = 24 * ms).
  { intros ms. unfold ms_to_samples.
    replace (ms * 24000) with (24 * ms * 1000) by lia.
    apply Z.quot_mul. lia. }
  cbv zeta. unfold AudioNormalizer_init.
  cbn [sample_rate samples_to_trim samples_to_pad_start samples_to_pad_end].
  rewrite !Hq. change (24 * 50) with 1200.
  rewrite (ms_to_samples_binary64_exact _ Hgap).
  rewrite (ms_to_samples_binary64_exact _ Hdyn).
  split; [ reflexivity | ].
  split; [ vm_compute; reflexivity | ].
  split; [ reflexivity | ].
  repeat split; lia.
Qed.

Lemma AudioNormalizer_init_samples_witness :
  let settings := mk_settings 250 410 in
  let self := AudioNormalizer_init settings in
  exact_sample_count 250 /\
  exact_sample_count 410 /\
  ms_to_samples_binary64 250 24000 = Ok (samples_to_trim self) /\
  ms_to_samples_binary64 50 24000 = Ok (samples_to_pad_start self) /\
  ms_to_samples_binary64 410 24000 = Ok (24 * 410) /\
  sample_rate self = 24000 /\
  samples_to_trim self = 24 * 250 /\
  samples_to_pad_start self = 1200 /\
  samples_to_pad_end self = Z.max (24 * 410 - 1200) 0 /\
  samples_to_pad_start self + samples_to_pad_end self
    = Z.max (24 * 410) 1200 /\
  (samples_to_pad_end self = 0 <-> 410 <= 50).
Proof.
  cbv zeta.
  assert (H1 : exact_sample_count 250) by (vm_compute; discriminate).
  assert (H2 : exact_sample_count 410) by (vm_compute; discriminate).
  split; [ exact H1 | ]. split; [ exact H2 | ].
  exact (AudioNormalizer_init_samples (mk_settings 250 410) H1 H2).
Defined.

(** ** The threshold *)

(** X4.  At a threshold of 0 dBFS or more, up to the 6165 dB at which
    the amplitude still evaluates, the amplitude is at least [int16_max]:
    no [int16] sample is above it, and the locator keeps every buffer
    whole. *)
Theorem nothing_exceeds_full_scale (self : AudioNormalizer)
    (audio_data : list Z) (silence_threshold_db : Z) :
  0 <= silence_threshold_db ->
  threshold_evaluates silence_threshold_db = true ->
  Forall in_int16 audio_data ->
  Forall (fun s => exceeds_threshold s silence_threshold_db = false)
         audio_data /\
  find_first_last_non_silent self audio_data silence_threshold_db
    = (0, Z.of_nat (length audio_data)).
Proof.
  intros Hdb _ Hrange.
  assert (Hq : Forall (fun s => exceeds_threshold s silence_threshold_db
                                = false) audio_data).
  { eapply Forall_impl; [ exact Hrange | ].
    unfold in_int16, int16_min, exceeds_threshold. intros s Hs.
    replace (0 <=? silence_threshold_db) with true
      by (symmetry; apply Z.leb_le; assumption).
    destruct (Z.ltb_spec 0 s) as [Hpos | ]; [ | reflexivity ].
    cbn [andb]. apply Z.ltb_ge.
    assert (s ^ 20 <= int16_max ^ 20) by (apply Z.pow_le_mono_l; lia).
    assert (1 <= 10 ^ silence_threshold_db)
      by (apply Z.lt_pred_le, Z.pow_pos_nonneg; lia).
    assert (0 < int16_max ^ 20) by (vm_compute; reflexivity).
    nia. }
  split; [ exact Hq | ].
  destruct (find_first_last_non_silent_cases self audio_data
              silence_threshold_db)
    as [ [_ H] | (first & _ & _ & (s & Hlook & Hs) & _) ]; [ exact H | ].
  pose proof (Forall_lookup_1 _ _ _ _ Hq Hlook) as Hf. cbv beta in Hf.
  congruence.
Qed.

Lemma nothing_exceeds_full_scale_witness :
  let self := AudioNormalizer_init (mk_settings 250 410) in
  let audio_data := [32767; -32768; 12] in
  0 <= 0 /\
  threshold_evaluates 0 = true /\
  Forall in_int16 audio_data /\
  Forall (fun s => exceeds_threshold s 0 = false) audio_data /\
  find_first_last_non_silent self audio_data 0
    = (0, Z.of_nat (length audio_data)).
Proof.
  cbv zeta.
  assert (H0 : 0 <= 0) by lia.
  assert (Ht : threshold_evaluates 0 = true) by (vm_compute; reflexivity).
  assert (Hr : Forall in_int16 [32767; -32768; 12])
    by (repeat constructor; discriminate).
  split; [ exact H0 | ]. split; [ exact Ht | ]. split; [ exact Hr | ].
  exact (nothing_exceeds_full_scale
           (AudioNormalizer_init (mk_settings 250 410))
           [32767; -32768; 12] 0 H0 Ht Hr).
Defined.



(** ** The locator *)

Lemma locator_bounds (self : AudioNormalizer) (audio_data : list Z) (db : Z) :
  0 <= samples_to_pad_start self -> 0 <= samples_to_pad_end self ->
  0 <= fst (find_first_last_non_silent self audio_data db)
    <= snd (find_first_last_non_silent self audio_data db) /\
  snd (find_first_last_non_silent self audio_data db)
    <= Z.of_nat (length audio_data).
Proof.
  intros Hps Hpe.
  destruct (find_first_last_non_silent_cases self audio_data db)
    as [ [_ ->] | (first & last & Hfl & _ & _ & -> & _) ];
    cbn [fst snd]; lia.
Qed.

(** Every sample above the threshold lies between the two indices. *)
Lemma locator_covers_loud (self : AudioNormalizer) (audio_data : list Z)
    (db : Z) (k : nat) (s : Z) :
  0 <= samples_to_pad_start self -> 0 <= samples_to_pad_end self ->
  audio_data !! k = Some s -> exceeds_threshold s db = true ->
  fst (find_first_last_non_silent self audio_data db) <= Z.of_nat k
    <= snd (find_first_last_non_silent self audio_data db) /\
  (1 <= samples_to_pad_end self ->
   Z.of_nat k < snd (find_first_last_non_silent self audio_data db)).
Proof.
  intros Hps Hpe Hlook Hs.
  destruct (find_first_last_non_silent_cases self audio_data db)
    as [ [Hq _] | (first & last & Hfl & _ & _ & -> & Hout) ].
  - pose proof (Forall_lookup_1 _ _ _ _ Hq Hlook) as Hf. cbv beta in Hf.
    congruence.
  - cbn [fst snd].
    assert (Hk : (first <= k <= last)%nat).
    { destruct (Nat.le_gt_cases first k) as [ H1 | H1 ].
      - destruct (Nat.le_gt_cases k last) as [ H2 | H2 ]; [ lia | ].
        specialize (Hout k s Hlook (or_intror H2)). congruence.
      - specialize (Hout k s Hlook (or_introl H1)). congruence. }
    lia.
Qed.

(** X6.  The range returned by the locator, for non-negative paddings: it
    contains every sample above the threshold; when it does not start at 0
    it starts exactly [samples_to_pad_start] samples before the first sample
    above the threshold, and when it does not end at [len(audio_data)] it
    ends exactly [samples_to_pad_end] samples after the last one. *)
Theorem locator_range_is_tight (self : AudioNormalizer)
    (audio_data : list Z) (silence_threshold_db : Z) :
  0 <= samples_to_pad_start self ->
  0 <= samples_to_pad_end self ->
  let '(start_index, end_index) :=
    find_first_last_non_silent self audio_data silence_threshold_db in
  (forall (k : nat) s,
     audio_data !! k = Some s ->
     exceeds_threshold s silence_threshold_db = true ->
     start_index <= Z.of_nat k <= end_index) /\
  (0 < start_index ->
   exists (first : nat) s,
     Z.of_nat first = start_index + samples_to_pad_start self /\
     audio_data !! first = Some s /\
     exceeds_threshold s silence_threshold_db = true /\
     forall (k : nat) s', (k < first)%nat -> audio_data !! k = Some s' ->
       exceeds_threshold s' silence_threshold_db = false) /\
  (end_index < Z.of_nat (length audio_data) ->
   exists (last : nat) s,
     Z.of_nat last = end_index - samples_to_pad_end self /\
     audio_data !! last = Some s /\
     exceeds_threshold s silence_threshold_db = true /\
     forall (k : nat) s', (last < k)%nat -> audio_data !! k = Some s' ->
       exceeds_threshold s' silence_threshold_db = false).
Proof.
  intros Hps Hpe.
  pose proof (fun k s H1 H2 =>
    proj1 (locator_covers_loud self audio_data silence_threshold_db k s
             Hps Hpe H1 H2)) as Hcover.
  destruct (find_first_last_non_silent_cases self audio_data
              silence_threshold_db)
    as [ [_ Heq] | (first & last & Hfl & (sf & Hlf & Hsf) & (sl & Hll & Hsl)
                    & Heq & Hout) ];
    rewrite Heq in Hcover |- *; cbn [fst snd] in Hcover.
  - split; [ exact Hcover | ]. split; intros; lia.
  - split; [ exact Hcover | ]. split.
    + intros Hpos. exists first, sf. split; [ lia | ].
      split; [ exact Hlf | ]. split; [ exact Hsf | ].
      intros k s' Hk Hlook. exact (Hout k s' Hlook (or_introl Hk)).
    + intros Hlt. exists last, sl. split; [ lia | ].
      split; [ exact Hll | ]. split; [ exact Hsl | ].
      intros k s' Hk Hlook. exact (Hout k s' Hlook (or_intror Hk)).
Qed.

Lemma locator_range_is_tight_witness :
  let self := mk_normalizer 0 24000 0 1 2 in
  let audio_data := [0; 0; 0; 200; -5; 300; 0; 0; 0; 0] in
  0 <= samples_to_pad_start self /\
  0 <= samples_to_pad_end self /\
  find_first_last_non_silent self audio_data (-45) = (2, 7) /\
  let '(start_index, end_index) :=
    find_first_last_non_silent self audio_data (-45) in
  (forall (k : nat) s,
     audio_data !! k = Some s ->
     exceeds_threshold s (-45) = true ->
     start_index <= Z.of_nat k <= end_index) /\
  (0 < start_index ->
   exists (first : nat) s,
     Z.of_nat first = start_index + samples_to_pad_start self /\
     audio_data !! first = Some s /\
     exceeds_threshold s (-45) = true /\
     forall (k : nat) s', (k < first)%nat -> audio_data !! k = Some s' ->
       exceeds_threshold s' (-45) = false) /\
  (end_index < Z.of_nat (length audio_data) ->
   exists (last : nat) s,
     Z.of_nat last = end_index - samples_to_pad_end self /\
     audio_data !! last = Some s /\
     exceeds_threshold s (-45) = true /\
     forall (k : nat) s', (last < k)%nat -> audio_data !! k = Some s' ->
       exceeds_threshold s' (-45) = false).
Proof.
  cbv zeta.
  assert (H1 : 0 <= samples_to_pad_start (mk_normalizer 0 24000 0 1 2))
    by (cbn; lia).
  assert (H2 : 0 <= samples_to_pad_end (mk_normalizer 0 24000 0 1 2))
    by (cbn; lia).
  split; [ exact H1 | ]. split; [ exact H2 | ].
  split; [ vm_compute; reflexivity | ].
  exact (locator_range_is_tight (mk_normalizer 0 24000 0 1 2)
           [0; 0; 0; 200; -5; 300; 0; 0; 0; 0] (-45) H1 H2).
Defined.

(** X7.  A buffer no longer than the end padding, and at most one sample
    longer than the start padding, is never trimmed, whatever it holds, at
    every threshold at which the amplitude evaluates. *)
Theorem short_buffer_not_trimmed (self : AudioNormalizer)
    (audio_data : list Z) (silence_threshold_db : Z) :
  threshold_evaluates silence_threshold_db = true ->
  0 <= samples_to_pad_start self ->
  Z.of_nat (length audio_data) <= samples_to_pad_start self + 1 ->
  Z.of_nat (length audio_data) <= samples_to_pad_end self ->
  find_first_last_non_silent self audio_data silence_threshold_db
    = (0, Z.of_nat (length audio_data)).
Proof.
  intros _ Hps Hshort Hpe.
  destruct (find_first_last_non_silent_cases self audio_data
              silence_threshold_db)
    as [ [_ ->] | (first & last & Hfl & _ & _ & -> & _) ];
    [ reflexivity | ].
  f_equal; lia.
Qed.

Lemma short_buffer_not_trimmed_witness :
  let self := AudioNormalizer_init (mk_settings 250 410) in
  let audio_data := [0; 0; 32767; 0; 0] in
  threshold_evaluates (-45) = true /\
  0 <= samples_to_pad_start self /\
  Z.of_nat (length audio_data) <= samples_to_pad_start self + 1 /\
  Z.of_nat (length audio_data) <= samples_to_pad_end self /\
  find_first_last_non_silent self audio_data (-45)
    = (0, Z.of_nat (length audio_data)).
Proof.
  cbv zeta.
  assert (Ht : threshold_evaluates (-45) = true) by (vm_compute; reflexivity).
  assert (H1 : 0 <= samples_to_pad_start
                      (AudioNormalizer_init (mk_settings 250 410)))
    by (vm_compute; discriminate).
  assert (H2 : Z.of_nat (length [0; 0; 32767; 0; 0])
               <= samples_to_pad_start
                    (AudioNormalizer_init (mk_settings 250 410)) + 1)
    by (vm_compute; discriminate).
  assert (H3 : Z.of_nat (length [0; 0; 32767; 0; 0])
               <= samples_to_pad_end
                    (AudioNormalizer_init (mk_settings 250 410)))
    by (vm_compute; discriminate).
  split; [ exact Ht | ].
  split; [ exact H1 | ]. split; [ exact H2 | ]. split; [ exact H3 | ].
  exact (short_buffer_not_trimmed
           (AudioNormalizer_init (mk_settings 250 410))
           [0; 0; 32767; 0; 0] (-45) Ht H1 H2 H3).
Defined.

(** X17.  Silence trimming is idempotent when the end padding is at least
    one sample: on the slice that the locator's range cuts out of a buffer,
    the locator returns the whole slice. *)
Theorem locator_idempotent (self : AudioNormalizer) (audio_data : list Z)
    (silence_threshold_db : Z) :
  0 <= samples_to_pad_start self ->
  1 <= samples_to_pad_end self ->
  let '(start_index, end_index) :=
    find_first_last_non_silent self audio_data silence_threshold_db in
  let trimmed := py_slice audio_data start_index end_index in
  find_first_last_non_silent self trimmed silence_threshold_db
    = (0, Z.of_nat (length trimmed)) /\
  Z.of_nat (length trimmed) = end_index - start_index.
Proof.
  intros Hps Hpe.
  pose proof (locator_bounds self audio_data silence_threshold_db Hps
                ltac:(lia)) as [Hb1 Hb2].
  pose proof (fun k s H1 H2 =>
    locator_covers_loud self audio_data silence_threshold_db k s Hps
      ltac:(lia) H1 H2) as Hcover.
  destruct (find_first_last_non_silent_cases self audio_data
              silence_threshold_db)
    as [ [Hq Heq] | (first & last & Hfl & (sf & Hlf & Hsf) & (sl & Hll & Hsl)
                     & Heq & _) ];
    rewrite Heq in Hb1, Hb2, Hcover |- *; cbn [fst snd] in Hb1, Hb2, Hcover;
    cbv zeta.
  - rewrite py_slice_full. split; [ | lia ].
    destruct (find_first_last_non_silent_cases self audio_data
                silence_threshold_db)
      as [ [_ H] | (f' & _ & _ & (s & Hlook & Hs) & _) ]; [ exact H | ].
    pose proof (Forall_lookup_1 _ _ _ _ Hq Hlook) as Hf. cbv beta in Hf.
    congruence.
  - set (start_index := Z.max (Z.of_nat first - samples_to_pad_start self) 0)
      in *.
    set (end_index := Z.min (Z.of_nat last + samples_to_pad_end self)
                            (Z.of_nat (length audio_data))) in *.
    assert (Hw : py_slice audio_data start_index end_index
                 = take (Z.to_nat (end_index - start_index))
                        (drop (Z.to_nat start_index) audio_data)).
    { unfold py_slice, py_slice_bound.
      destruct (Z.ltb_spec start_index 0), (Z.ltb_spec end_index 0);
        try lia.
      rewrite !Z.min_l by lia. reflexivity. }
    set (trimmed := py_slice audio_data start_index end_index) in *.
    assert (Hlen : Z.of_nat (length trimmed) = end_index - start_index).
    { rewrite Hw, length_take, length_drop. lia. }
    assert (Hlookup : forall i : nat,
               Z.of_nat i < end_index - start_index ->
               trimmed !! i = audio_data !! (Z.to_nat start_index + i)%nat).
    { intros i Hi. rewrite Hw, lookup_take_lt by lia. apply lookup_drop. }
    split; [ | exact Hlen ].
    destruct (find_first_last_non_silent_cases self trimmed
                silence_threshold_db)
      as [ [_ H] | (f' & l' & Hfl' & _ & _ & -> & Hout) ]; [ exact H | ].
    assert (Hf : (f' <= first - Z.to_nat start_index)%nat).
    { destruct (Nat.le_gt_cases f' (first - Z.to_nat start_index))
        as [ | Hgt ]; [ assumption | ].
      assert (Hl : trimmed !! (first - Z.to_nat start_index)%nat = Some sf).
      { rewrite Hlookup by lia. rewrite <- Hlf. f_equal. lia. }
      pose proof (Hout _ _ Hl (or_introl Hgt)). congruence. }
    assert (Hl : (last - Z.to_nat start_index <= l')%nat).
    { destruct (Nat.le_gt_cases (last - Z.to_nat start_index) l')
        as [ | Hgt ]; [ assumption | ].
      assert (Hl : trimmed !! (last - Z.to_nat start_index)%nat = Some sl).
      { rewrite Hlookup by lia. rewrite <- Hll. f_equal. lia. }
      pose proof (Hout _ _ Hl (or_intror Hgt)). congruence. }
    f_equal; lia.
Qed.

Lemma locator_idempotent_witness :
  let self := mk_normalizer 0 24000 0 1 2 in
  let audio_data := [0; 0; 0; 200; -5; 300; 0; 0; 0; 0] in
  0 <= samples_to_pad_start self /\
  1 <= samples_to_pad_end self /\
  py_slice audio_data 2 7 = [0; 200; -5; 300; 0] /\
  let '(start_index, end_index) :=
    find_first_last_non_silent self audio_data (-45) in
  let trimmed := py_slice audio_data start_index end_index in
  find_first_last_non_silent self trimmed (-45)
    = (0, Z.of_nat (length trimmed)) /\
  Z.of_nat (length trimmed) = end_index - start_index.
Proof.
  cbv zeta.
  assert (H1 : 0 <= samples_to_pad_start (mk_normalizer 0 24000 0 1 2))
    by (cbn; lia).
  assert (H2 : 1 <= samples_to_pad_end (mk_normalizer 0 24000 0 1 2))
    by (cbn; lia).
  split; [ exact H1 | ]. split; [ exact H2 | ].
  split; [ reflexivity | ].
  exact (locator_idempotent (mk_normalizer 0 24000 0 1 2)
           [0; 0; 0; 200; -5; 300; 0; 0; 0; 0] (-45) H1 H2).
Defined.

(** ** [normalize] *)

Lemma py_slice_window {A} (a : list A) (start stop : Z) :
  0 <= start <= stop -> stop <= Z.of_nat (length a) ->
  py_slice a start stop
    = take (Z.to_nat (stop - start)) (drop (Z.to_nat start) a).
Proof.
  intros H1 H2. unfold py_slice, py_slice_bound.
  destruct (Z.ltb_spec start 0), (Z.ltb_spec stop 0); try lia.
  rewrite !Z.min_l by lia. reflexivity.
Qed.

(** A sample of value 185 or more passes the comparison at -45 dBFS. *)
Lemma at_least_185_exceeds_default (s : Z) :
  185 <= s -> exceeds_threshold s (-45) = true.
Proof.
  intros Hge. unfold exceeds_threshold.
  change (0 <=? -45) with false. cbv iota. change (- -45) with 45.
  replace (0 <? s) with true by (symmetry; apply Z.ltb_lt; lia).
  cbn [andb]. apply Z.ltb_lt.
  assert (185 ^ 20 <= s ^ 20) by (apply Z.pow_le_mono_l; lia).
  assert (int16_max ^ 20 < 185 ^ 20 * 10 ^ 45) by (vm_compute; reflexivity).
  assert (0 < 10 ^ 45) by (vm_compute; reflexivity).
  nia.
Qed.

(** X8.  Silence trimming never drops a sample that passes the locator's
    signed comparison when the end padding is at least one sample: the
    buffer returned by [normalize] is a window of the quantised chunk, and
    every sample of the quantised chunk whose value is 185 or more is in
    it, at its place.  (Samples of value -185 or less, as loud, are not
    protected: the comparison is signed.) *)
Theorem normalize_keeps_samples_above_threshold (self : AudioNormalizer)
    (audio_data : ndarray) (is_last_chunk : bool) (audio_int : list Z) :
  0 <= samples_to_pad_start self ->
  1 <= samples_to_pad_end self ->
  quantized_chunk self audio_data is_last_chunk = Ok audio_int ->
  exists (out : list Z) (start : nat),
    normalize self audio_data is_last_chunk = Ok out /\
    out = take (length out) (drop start audio_int) /\
    forall (k : nat) s,
      audio_int !! k = Some s -> 185 <= s ->
      (start <= k < start + length out)%nat /\
      out !! (k - start)%nat = Some s.
Proof.
  intros Hps Hpe Hq.
  pose proof (locator_bounds self audio_int (-45) Hps ltac:(lia))
    as [Hb1 Hb2].
  pose proof (fun k s H1 H2 =>
    locator_covers_loud self audio_int (-45) k s Hps ltac:(lia) H1 H2)
    as Hcover.
  rewrite (normalize_of_quantized _ _ _ _ Hq).
  destruct (find_first_last_non_silent self audio_int (-45))
    as [start_index end_index].
  cbn [fst snd] in *.
  rewrite (py_slice_window _ _ _ Hb1 Hb2).
  set (out := take (Z.to_nat (end_index - start_index))
                   (drop (Z.to_nat start_index) audio_int)).
  assert (Hlen : length out = Z.to_nat (end_index - start_index)).
  { unfold out. rewrite length_take, length_drop. lia. }
  exists out, (Z.to_nat start_index).
  split; [ reflexivity | ]. split; [ rewrite Hlen; reflexivity | ].
  intros k s Hlook Hs185.
  pose proof (at_least_185_exceeds_default s Hs185) as Hs.
  destruct (Hcover k s Hlook Hs) as [Hk Hlt]. specialize (Hlt Hpe).
  split; [ lia | ].
  unfold out. rewrite lookup_take_lt by lia. rewrite lookup_drop.
  rewrite <- Hlook. f_equal. lia.
Qed.

Lemma normalize_keeps_samples_above_threshold_witness :
  let self := AudioNormalizer_init (mk_settings 250 410) in
  let audio_data := Int16Array [0; 16384; -32768; 0] in
  0 <= samples_to_pad_start self /\
  1 <= samples_to_pad_end self /\
  quantized_chunk self audio_data true = Ok [0; 16383; -32767; 0] /\
  exists (out : list Z) (start : nat),
    normalize self audio_data true = Ok out /\
    out = take (length out) (drop start [0; 16383; -32767; 0]) /\
    forall (k : nat) s,
      [0; 16383; -32767; 0] !! k = Some s ->
      185 <= s ->
      (start <= k < start + length out)%nat /\
      out !! (k - start)%nat = Some s.
Proof.
  cbv zeta.
  assert (H1 : 0 <= samples_to_pad_start
                      (AudioNormalizer_init (mk_settings 250 410)))
    by (vm_compute; discriminate).
  assert (H2 : 1 <= samples_to_pad_end
                      (AudioNormalizer_init (mk_settings 250 410)))
    by (vm_compute; discriminate).
  assert (H3 : quantized_chunk (AudioNormalizer_init (mk_settings 250 410))
                 (Int16Array [0; 16384; -32768; 0]) true
               = Ok [0; 16383; -32767; 0])
    by (vm_compute; reflexivity).
  split; [ exact H1 | ]. split; [ exact H2 | ]. split; [ exact H3 | ].
  exact (normalize_keeps_samples_above_threshold
           (AudioNormalizer_init (mk_settings 250 410))
           (Int16Array [0; 16384; -32768; 0]) true _ H1 H2 H3).
Defined.

Lemma py_slice_map {A B} (f : A -> B) (a : list A) (start stop : Z) :
  py_slice (List.map f a) start stop = List.map f (py_slice a start stop).
Proof.
  unfold py_slice. rewrite length_map.
  rewrite skipn_map, firstn_map. reflexivity.
Qed.

Lemma trim_chunk_end_map {A B} (f : A -> B) (self : AudioNormalizer)
    (a : list A) (last : bool) :
  trim_chunk_end self (List.map f a) last
    = List.map f (trim_chunk_end self a last).
Proof.
  unfold trim_chunk_end. rewrite length_map.
  destruct (negb last && _); [ apply py_slice_map | reflexivity ].
Qed.

Lemma fold_maximum_zeros (xs : list spec_float) :
  Forall (fun x => is_zero32 x = true) xs ->
  fold_left Float32.maximum (List.map Float32.abs xs) (S754_zero false)
    = S754_zero false.
Proof.
  induction 1 as [ | x xs Hx _ IH ]; [ reflexivity | ].
  cbn [List.map fold_left].
  destruct x; try discriminate. exact IH.
Qed.

(** X9.  A chunk of zeros (of at least one sample) is not divided by its
    peak and not silence-trimmed: [normalize] returns zeros, as many as the
    end trim leaves. *)
Theorem normalize_zero_chunk (self : AudioNormalizer) (audio_data : ndarray)
    (is_last_chunk : bool) :
  ndarray_len audio_data <> 0%nat ->
  Forall (fun x => is_zero32 x = true) (astype_float32 audio_data) ->
  peak_normalize audio_data = Ok (astype_float32 audio_data) /\
  normalize self audio_data is_last_chunk
    = Ok (trim_chunk_end self (repeat 0 (ndarray_len audio_data))
                         is_last_chunk).
Proof.
  intros Hlen Hzero.
  assert (Hpeak : peak_normalize audio_data
                  = Ok (astype_float32 audio_data)).
  { unfold peak_normalize.
    rewrite <- astype_float32_length in Hlen.
    destruct (astype_float32 audio_data) as [ | x xs ];
      [ contradiction | ].
    apply Forall_cons_1 in Hzero as [Hx Hxs].
    cbn [List.map np_max bind].
    destruct x; try discriminate. cbn [Float32.abs SFabs].
    rewrite (fold_maximum_zeros xs Hxs). reflexivity. }
  split; [ exact Hpeak | ].
  assert (Hq : quantized_chunk self audio_data is_last_chunk
               = Ok (trim_chunk_end self (repeat 0 (ndarray_len audio_data))
                                    is_last_chunk)).
  { unfold quantized_chunk. rewrite Hpeak. cbn [bind].
    rewrite <- trim_chunk_end_map. do 2 f_equal.
    rewrite <- astype_float32_length. clear Hpeak Hlen.
    induction Hzero as [ | x xs Hx _ IH ]; [ reflexivity | ].
    cbn [List.map length repeat]. rewrite IH.
    destruct x; try discriminate. rewrite quantize_zero. reflexivity. }
  rewrite (normalize_of_quantized _ _ _ _ Hq).
  set (q := trim_chunk_end self (repeat 0 (ndarray_len audio_data))
                           is_last_chunk).
  assert (Hquiet : Forall (fun s => exceeds_threshold s (-45) = false) q).
  { apply trim_chunk_end_Forall.
    apply Forall_forall. intros s Hs.
    apply list_elem_of_In, repeat_spec in Hs. subst s. reflexivity. }
  destruct (find_first_last_non_silent_cases self q (-45))
    as [ [_ ->] | (first & _ & _ & (s & Hlook & Hs) & _) ].
  - cbn [fst snd]. rewrite py_slice_full. reflexivity.
  - pose proof (Forall_lookup_1 _ _ _ _ Hquiet Hlook) as Hf.
    cbv beta in Hf. congruence.
Qed.

Lemma normalize_zero_chunk_witness :
  let self := AudioNormalizer_init (mk_settings 250 410) in
  let audio_data := Int16Array [0; 0; 0] in
  ndarray_len audio_data <> 0%nat /\
  Forall (fun x => is_zero32 x = true) (astype_float32 audio_data) /\
  normalize self audio_data false = Ok [0; 0; 0].
Proof.
  cbv zeta.
  assert (H1 : ndarray_len (Int16Array [0; 0; 0]) <> 0%nat) by discriminate.
  assert (H2 : Forall (fun x => is_zero32 x = true)
                      (astype_float32 (Int16Array [0; 0; 0])))
    by (repeat constructor).
  split; [ exact H1 | ]. split; [ exact H2 | ].
  exact (proj2 (normalize_zero_chunk
                  (AudioNormalizer_init (mk_settings 250 410))
                  (Int16Array [0; 0; 0]) false H1 H2)).
Defined.

(** A finite non-zero value divided by its own magnitude is exactly one,
    with its sign. *)
Lemma div_by_own_magnitude (s : bool) (m : positive) (e : Z) :
  Float32.div (S754_finite s m e) (S754_finite false m e)
    = S754_finite s 8388608 (- 23).
Proof.
  unfold Float32.div. cbn [SFdiv]. unfold SFdiv_core_binary.
  rewrite !Z.sub_diag.
  change (Z.min (fexp Float32.prec Float32.emax 0) 0) with (- 24).
  change (0 - - 24) with 24.
  cbv iota beta.
  rewrite Z.shiftl_mul_pow2 by lia.
  assert (Hd : Z.div_eucl (Z.pos m * 2 ^ 24) (Z.pos m) = (2 ^ 24, 0)).
  { pose proof (Z.div_mul (2 ^ 24) (Z.pos m) ltac:(lia)) as Hq.
    pose proof (Z.mod_mul (2 ^ 24) (Z.pos m) ltac:(lia)) as Hr.
    unfold Z.div, Z.modulo in Hq, Hr.
    rewrite (Z.mul_comm (Z.pos m)).
    destruct (Z.div_eucl (2 ^ 24 * Z.pos m) (Z.pos m)) as [q r].
    congruence. }
  rewrite Hd. rewrite new_location_exact.
  destruct s; vm_compute; reflexivity.
Qed.

(** X10.  Peak normalisation brings the loudest sample to full scale: in
    every chunk of finite samples that are not all zero, some sample
    quantises to 32767 or to -32767 (before the end trim and the silence
    trim). *)
Theorem peak_sample_reaches_full_scale (audio_data : ndarray) :
  finite_samples audio_data ->
  (exists x, In x (astype_float32 audio_data) /\ is_zero32 x = false) ->
  exists audio_float,
    peak_normalize audio_data = Ok audio_float /\
    (In 32767 (List.map quantize audio_float) \/
     In (-32767) (List.map quantize audio_float)).
Proof.
  intros Hfin%astype_float32_finite (x & Hx & Hxnz).
  unfold peak_normalize.
  remember (astype_float32 audio_data) as fs eqn:Hfs. clear Hfs.
  assert (Hmags : Forall magnitude (List.map Float32.abs fs)).
  { apply List.Forall_map. eapply Forall_impl; [ exact Hfin | ].
    intros y [Hv Hf]. apply magnitude_abs; assumption. }
  assert (Hspec : exists peak,
             np_max (List.map Float32.abs fs) = Ok peak /\
             In peak (List.map Float32.abs fs) /\
             Forall (fun y => mag_le y peak) (List.map Float32.abs fs)).
  { destruct fs as [ | x0 xs ]; [ contradiction | ].
    cbn [List.map np_max] in Hmags |- *.
    apply Forall_cons_1 in Hmags as [Hm0 Hmxs].
    destruct (fold_maximum_spec _ _ Hm0 Hmxs) as (Hin & Hle0 & Hlexs).
    eexists. split; [ reflexivity | ].
    split; [ exact Hin | constructor; assumption ]. }
  destruct Hspec as (peak & -> & Hin & Hle). cbn [bind].
  apply in_map_iff in Hin as (y & Hy & Hyin).
  rewrite List.Forall_forall in Hle, Hfin.
  destruct (Hfin x Hx) as [_ Hxf].
  pose proof (Hle _ (in_map Float32.abs _ _ Hx)) as Hxle.
  destruct (Hfin y Hyin) as [_ Hyf].
  destruct x as [ sx | sx | | sx mx ex ]; try discriminate.
  destruct y as [ sy | sy | | sy my ey ]; try discriminate;
    cbn [Float32.abs SFabs] in Hy; subst peak;
    cbn [Float32.abs SFabs mag_le] in Hxle; [ contradiction | ].
  change (Float32.gtb (S754_finite false my ey) Float32.zero) with true.
  eexists. split; [ reflexivity | ].
  rewrite List.map_map.
  assert (Hq : In (quantize (Float32.div (S754_finite sy my ey)
                                         (S754_finite false my ey)))
                  (List.map (fun x => quantize
                               (Float32.div x (S754_finite false my ey)))
                            fs))
    by (apply (in_map (fun x => quantize
                         (Float32.div x (S754_finite false my ey)))),
          Hyin).
  rewrite div_by_own_magnitude in Hq.
  destruct sy; [ right | left ]; exact Hq.
Qed.

Lemma peak_sample_reaches_full_scale_witness :
  let audio_data := Int16Array [3; -7; 5] in
  finite_samples audio_data /\
  (exists x, In x (astype_float32 audio_data) /\ is_zero32 x = false) /\
  exists audio_float,
    peak_normalize audio_data = Ok audio_float /\
    (In 32767 (List.map quantize audio_float) \/
     In (-32767) (List.map quantize audio_float)).
Proof.
  cbv zeta.
  assert (H1 : finite_samples (Int16Array [3; -7; 5]))
    by (cbn; repeat constructor; discriminate).
  assert (H2 : exists x, In x (astype_float32 (Int16Array [3; -7; 5]))
                         /\ is_zero32 x = false)
    by (exists (Float32.of_Z 3); split; [ left; reflexivity | reflexivity ]).
  split; [ exact H1 | ]. split; [ exact H2 | ].
  exact (peak_sample_reaches_full_scale (Int16Array [3; -7; 5]) H1 H2).
Defined.

Lemma quantize_at_most_signed (q : spec_float) (s : bool) :
  at_most 1 s q ->
  if s then - int16_max <= quantize q <= 0
  else 0 <= quantize q <= int16_max.
Proof.
  unfold quantize, float32_to_int16. rewrite float32_of_int16_max.
  destruct q as [ s' | s' | | s' m e ]; cbn [at_most]; try contradiction.
  - intros _. destruct s, s'; vm_compute; split; discriminate.
  - intros (-> & He & Hm). unfold Float32.mul. cbn [SFmul].
    rewrite xorb_false_r.
    assert (Hp : 0 < 2 ^ (- e)) by (apply Z.pow_pos_nonneg; lia).
    pose proof (binary_round_aux_bound s
      (Z.pos (m * 16776704)) (e + - 9) loc_Exact 32767) as Hr.
    assert (Hsplit : 2 ^ (- (e + - 9)) = 512 * 2 ^ (- e)).
    { replace (- (e + - 9)) with (9 + - e) by lia.
      rewrite Z.pow_add_r by lia. reflexivity. }
    rewrite Hsplit in Hr.
    specialize (Hr ltac:(lia) ltac:(lia)
                   ltac:(unfold Float32.prec; cbn; lia)).
    rewrite Pos2Z.inj_mul in Hr.
    specialize (Hr ltac:(
      destruct (Z.eq_dec (Z.pos m) (2 ^ (- e)));
      [ right; split; [ lia | reflexivity ] | left; lia ])).
    rewrite <- Pos2Z.inj_mul in Hr.
    destruct (binary_round_aux Float32.prec Float32.emax s
                (Z.pos (m * 16776704)) (e + - 9) loc_Exact)
      as [ s2 | s2 | | s2 m2 e2 ]; cbn [at_most] in Hr; try contradiction.
    + destruct s; vm_compute; split; discriminate.
    + destruct Hr as (-> & He2 & Hm2). cbn [Float32.trunc].
      assert (Hq : 0 <= Z.shiftl (Z.pos m2) e2 <= 32767).
      { replace e2 with (- (- e2)) at 1 2 by lia.
        rewrite Z.shiftl_opp_r, Z.shiftr_div_pow2 by lia.
        assert (0 < 2 ^ (- e2)) by (apply Z.pow_pos_nonneg; lia).
        split; [ apply Z.div_pos; lia | ].
        apply Z.div_le_upper_bound; lia. }
      unfold int16_max.
      rewrite wrap_int16_small
        by (unfold in_int16, int16_min, int16_max, cond_Zopp;
            destruct s; lia).
      unfold cond_Zopp. destruct s; lia.
Qed.

Lemma div_at_most_signed (x : spec_float) (mp : positive) (ep : Z) :
  Float32.valid x = true -> Float32.is_finite x = true ->
  bounded Float32.prec Float32.emax mp ep = true ->
  SFleb (Float32.abs x) (S754_finite false mp ep) = true ->
  at_most 1 (sign_bit x) (Float32.div x (S754_finite false mp ep)).
Proof.
  intros Hv Hf Hbp Hle.
  destruct x as [ s | s | | s m e ]; try discriminate.
  - cbn. apply xorb_false_r.
  - cbn [sign_bit]. cbn in Hv.
    destruct (SFleb_finite_order m mp e ep Hv Hbp Hle) as [He Hm].
    unfold Float32.div. cbn [SFdiv]. rewrite xorb_false_r.
    pose proof (div_core_bound m mp e ep He Hm) as Hcore.
    destruct (SFdiv_core_binary Float32.prec Float32.emax (Z.pos m) e
                (Z.pos mp) ep) as [[q e'] l].
    destruct Hcore as (Hq & He' & Hcase).
    apply binary_round_aux_bound; try assumption.
    unfold Float32.prec. cbn. lia.
Qed.

Lemma Forall2_map_self {A B} (P : A -> B -> Prop) (f : A -> B) (l : list A) :
  Forall (fun x => P x (f x)) l -> Forall2 P l (List.map f l).
Proof. induction 1; cbn [List.map]; constructor; assumption. Qed.

(** X11.  Peak normalisation and quantisation keep the polarity of every
    sample of a chunk of finite samples: a sample with the sign bit set
    quantises into [[-32767, 0]], any other into [[0, 32767]]. *)
Theorem normalization_preserves_polarity (audio_data : ndarray)
    (audio_float : list spec_float) :
  finite_samples audio_data ->
  peak_normalize audio_data = Ok audio_float ->
  Forall2 (fun x y => if sign_bit x then - 32767 <= quantize y <= 0
                      else 0 <= quantize y <= 32767)
          (astype_float32 audio_data) audio_float.
Proof.
  intros Hfin%astype_float32_finite. unfold peak_normalize.
  remember (astype_float32 audio_data) as fs eqn:Hfs. clear Hfs.
  assert (Hmags : Forall magnitude (List.map Float32.abs fs)).
  { apply List.Forall_map. eapply Forall_impl; [ exact Hfin | ].
    intros y [Hv Hf]. apply magnitude_abs; assumption. }
  destruct fs as [ | x0 xs ] eqn:Hfs; [ discriminate | ].
  assert (Hspec : exists peak,
             np_max (List.map Float32.abs fs) = Ok peak /\
             magnitude peak /\
             Forall (fun x => mag_le (Float32.abs x) peak) fs).
  { rewrite Hfs. cbn [List.map np_max] in Hmags |- *.
    pose proof Hmags as Hmags'.
    apply Forall_cons_1 in Hmags' as [Hm0 Hmxs].
    destruct (fold_maximum_spec _ _ Hm0 Hmxs) as (Hin & Hle0 & Hlexs).
    eexists. split; [ reflexivity | ]. split.
    - rewrite List.Forall_forall in Hmags. apply Hmags, Hin.
    - constructor; [ assumption | ].
      apply List.Forall_map in Hlexs. exact Hlexs. }
  rewrite <- Hfs in *. clear Hfs x0 xs Hmags.
  destruct Hspec as (peak & -> & Hpeak & Hall). cbn [bind].
  intros [= <-].
  destruct peak as [ [ | ] | | | [ | ] mp ep ]; cbn in Hpeak;
    try contradiction.
  - change (Float32.gtb (S754_zero false) Float32.zero) with false.
    cbv iota. rewrite <- (List.map_id fs) at 2.
    apply Forall2_map_self.
    eapply Forall_impl; [ exact Hall | ].
    intros x Hx. destruct x as [ s | | | ]; cbn in Hx; try contradiction.
    cbn [sign_bit]. rewrite quantize_zero. destruct s; lia.
  - change (Float32.gtb (S754_finite false mp ep) Float32.zero) with true.
    cbv iota. apply Forall2_map_self.
    rewrite List.Forall_forall in Hall, Hfin |- *.
    intros x Hx. destruct (Hfin x Hx) as [Hv Hf].
    apply (quantize_at_most_signed _ (sign_bit x)).
    apply div_at_most_signed; try assumption.
    apply mag_le_SFleb; [ apply magnitude_abs; assumption | exact Hpeak | ].
    apply Hall, Hx.
Qed.

Lemma normalization_preserves_polarity_witness :
  let audio_data := Int16Array [3; -7; 0] in
  finite_samples audio_data /\
  exists audio_float,
    peak_normalize audio_data = Ok audio_float /\
    List.map quantize audio_float = [14043; -32767; 0] /\
    Forall2 (fun x y => if sign_bit x then - 32767 <= quantize y <= 0
                        else 0 <= quantize y <= 32767)
            (astype_float32 audio_data) audio_float.
Proof.
  cbv zeta.
  assert (H1 : finite_samples (Int16Array [3; -7; 0]))
    by (cbn; repeat constructor; discriminate).
  split; [ exact H1 | ].
  destruct (peak_normalize (Int16Array [3; -7; 0])) as [ fl | e ] eqn:E;
    [ | vm_compute in E; discriminate ].
  exists fl. split; [ reflexivity | ].
  split; [ vm_compute in E; injection E as <-; vm_compute; reflexivity | ].
  exact (normalization_preserves_polarity (Int16Array [3; -7; 0]) fl H1 E).
Defined.

Lemma peak_normalize_length (audio_data : ndarray)
    (audio_float : list spec_float) :
  peak_normalize audio_data = Ok audio_float ->
  length audio_float = ndarray_len audio_data /\
  ndarray_len audio_data <> 0%nat.
Proof.
  intros H.
  destruct (Nat.eq_dec (ndarray_len audio_data) 0%nat) as [Hz | Hnz].
  - rewrite (peak_normalize_empty _ Hz) in H. discriminate.
  - destruct (peak_normalize_nonempty _ Hnz) as (fl & Hfl & Hlen).
    split; [ congruence | exact Hnz ].
Qed.

(** X12.  The end trim for a positive trim length: the final chunk, and a
    chunk no longer than the trim length, are quantised whole; any other
    chunk loses exactly its last [samples_to_trim] samples, after peak
    normalisation and before quantisation. *)
Theorem end_trim_drops_tail (self : AudioNormalizer) (audio_data : ndarray)
    (is_last_chunk : bool) (audio_float : list spec_float) :
  0 < samples_to_trim self ->
  peak_normalize audio_data = Ok audio_float ->
  let n := ndarray_len audio_data in
  let keep :=
    if is_last_chunk || (Z.of_nat n <=? samples_to_trim self) then n
    else (n - Z.to_nat (samples_to_trim self))%nat in
  quantized_chunk self audio_data is_last_chunk
    = Ok (List.map quantize (take keep audio_float)) /\
  length (take keep audio_float) = keep /\
  (0 < keep)%nat.
Proof.
  intros Htrim Hfl. cbv zeta.
  destruct (peak_normalize_length _ _ Hfl) as [Hlen Hnz].
  unfold quantized_chunk. rewrite Hfl. cbn [bind].
  rewrite trim_chunk_end_positive by assumption. rewrite Hlen.
  destruct is_last_chunk; cbn [orb].
  - rewrite take_ge by lia. repeat split; lia.
  - rewrite Z.leb_antisym.
    destruct (Z.ltb_spec (samples_to_trim self)
                (Z.of_nat (ndarray_len audio_data))); cbn [negb].
    + split; [ reflexivity | ]. rewrite length_take. lia.
    + rewrite take_ge by lia. repeat split; lia.
Qed.

Lemma end_trim_drops_tail_witness :
  let self := mk_normalizer 0 24000 2 1200 8640 in
  let audio_data := Int16Array [1; 2; 4; 2; 1] in
  0 < samples_to_trim self /\
  exists audio_float,
    peak_normalize audio_data = Ok audio_float /\
    quantized_chunk self audio_data false
      = Ok (List.map quantize (take 3 audio_float)) /\
    quantized_chunk self audio_data false = Ok [8191; 16383; 32767].
Proof.
  cbv zeta.
  assert (H1 : 0 < samples_to_trim (mk_normalizer 0 24000 2 1200 8640))
    by (cbn; lia).
  split; [ exact H1 | ].
  destruct (peak_normalize (Int16Array [1; 2; 4; 2; 1])) as [ fl | e ] eqn:E;
    [ | vm_compute in E; discriminate ].
  exists fl. split; [ reflexivity | ].
  split.
  - exact (proj1 (end_trim_drops_tail (mk_normalizer 0 24000 2 1200 8640)
                    (Int16Array [1; 2; 4; 2; 1]) false fl H1 E)).
  - unfold quantized_chunk. rewrite E. vm_compute in E. injection E as <-.
    vm_compute. reflexivity.
Defined.

(** ** [convert_audio] *)









(** ** Two edges of the trimming *)

(** X18.  With a trim length of zero ([gap_trim_ms = 0]) every non-final
    chunk of at least one sample is emptied by the end trim
    ([audio_float[:-0]]), and [normalize] returns an empty buffer. *)
Theorem zero_trim_empties_every_non_final_chunk (self : AudioNormalizer)
    (audio_data : ndarray) :
  samples_to_trim self = 0 ->
  ndarray_len audio_data <> 0%nat ->
  quantized_chunk self audio_data false = Ok [] /\
  normalize self audio_data false = Ok [].
Proof.
  intros Hz Hnz.
  destruct (quantized_chunk_nonempty self audio_data false Hnz)
    as (fl & _ & Hlen & Hq).
  assert (Hfl : fl <> []) by (intros ->; cbn in Hlen; congruence).
  rewrite (trim_chunk_end_zero self fl Hz Hfl) in Hq. cbn [List.map] in Hq.
  split; [ exact Hq | ].
  rewrite (normalize_of_quantized _ _ _ _ Hq). reflexivity.
Qed.

Lemma zero_trim_empties_every_non_final_chunk_witness :
  let self := AudioNormalizer_init (mk_settings 0 410) in
  let audio_data := Int16Array [5; -32768; 7] in
  samples_to_trim self = 0 /\
  ndarray_len audio_data <> 0%nat /\
  quantized_chunk self audio_data false = Ok [] /\
  normalize self audio_data false = Ok [].
Proof.
  cbv zeta.
  assert (H1 : samples_to_trim (AudioNormalizer_init (mk_settings 0 410)) = 0)
    by reflexivity.
  assert (H2 : ndarray_len (Int16Array [5; -32768; 7]) <> 0%nat)
    by discriminate.
  split; [ exact H1 | ]. split; [ exact H2 | ].
  exact (zero_trim_empties_every_non_final_chunk
           (AudioNormalizer_init (mk_settings 0 410))
           (Int16Array [5; -32768; 7]) H1 H2).
Defined.

(** X19.  With an end padding of zero the returned end index is the index
    of the last sample above the threshold itself; used as the end of a
    slice, it leaves that sample out. *)
Theorem zero_end_padding_ends_at_last_loud_sample (self : AudioNormalizer)
    (audio_data : list Z) (silence_threshold_db : Z) (k : nat) (s : Z) :
  samples_to_pad_end self = 0 ->
  audio_data !! k = Some s ->
  exceeds_threshold s silence_threshold_db = true ->
  exists (last : nat) s_last,
    snd (find_first_last_non_silent self audio_data silence_threshold_db)
      = Z.of_nat last /\
    audio_data !! last = Some s_last /\
    exceeds_threshold s_last silence_threshold_db = true /\
    (k <= last)%nat.
Proof.
  intros Hpe Hlook Hs.
  destruct (find_first_last_non_silent_cases self audio_data
              silence_threshold_db)
    as [ [Hq _] | (first & last & Hfl & _ & (sl & Hll & Hsl) & -> & Hout) ].
  - pose proof (Forall_lookup_1 _ _ _ _ Hq Hlook) as Hf. cbv beta in Hf.
    congruence.
  - exists last, sl. cbn [snd]. rewrite Hpe.
    split; [ lia | ]. split; [ exact Hll | ]. split; [ exact Hsl | ].
    destruct (Nat.le_gt_cases k last) as [ | Hgt ]; [ assumption | ].
    pose proof (Hout k s Hlook (or_intror Hgt)). congruence.
Qed.

Lemma zero_end_padding_ends_at_last_loud_sample_witness :
  let self := AudioNormalizer_init (mk_settings 250 50) in
  let audio_data := [0; 500; 0; 700; 0] in
  samples_to_pad_end self = 0 /\
  audio_data !! 1%nat = Some 500 /\
  exceeds_threshold 500 (-45) = true /\
  py_slice audio_data 0 3 = [0; 500; 0] /\
  exists (last : nat) s_last,
    snd (find_first_last_non_silent self audio_data (-45))
      = Z.of_nat last /\
    audio_data !! last = Some s_last /\
    exceeds_threshold s_last (-45) = true /\
    (1 <= last)%nat.
Proof.
  cbv zeta.
  assert (H1 : samples_to_pad_end (AudioNormalizer_init (mk_settings 250 50))
               = 0) by reflexivity.
  assert (H2 : [0; 500; 0; 700; 0] !! 1%nat = Some 500) by reflexivity.
  assert (H3 : exceeds_threshold 500 (-45) = true) by reflexivity.
  split; [ exact H1 | ]. split; [ exact H2 | ]. split; [ exact H3 | ].
  split; [ reflexivity | ].
  exact (zero_end_padding_ends_at_last_loud_sample
           (AudioNormalizer_init (mk_settings 250 50))
           [0; 500; 0; 700; 0] (-45) 1 500 H1 H2 H3).
Defined.
